(** * Monthly report aggregation: products sold and customer purchases

    A shallow embedding of the two [useMemo] reducers of the monthly report
    tab, [productsSold] and [customerPurchases], which group the fetched sale
    records by product and by customer, and of the code around them.

    Modelling choices, all taken from the TypeScript source:
    - an optional or possibly missing field is an [option]; [None] is the
      JavaScript [undefined];
    - a JavaScript number is an IEEE double. The reducers are embedded twice.
      [Module Double] has the amounts as binary64 floats, with the rounding
      addition and division of the source; what is said about totals is said
      there. The embedding outside that module has the amounts as integers
      ([Z]): it is the reading of the same code on whole amounts, on which
      the sign of a difference and the counts are those of the doubles, and
      it carries the statements on keys, order and descriptive fields;
    - a JavaScript [Map] is an association list in insertion order, since the
      result is read back with [values()] in that order; mutating the object
      returned by [get] is a replacement of the stored value in place;
    - [Array.prototype.sort] is stable; for the comparators of the source its
      result is the stable insertion of the elements, which [Js.sort]
      computes. *)

From Stdlib Require Import ZArith QArith List String Bool Lia Permutation Sorted.
From Stdlib Require DecimalString DecimalNat.
From Stdlib Require Import Ascii.
From Stdlib Require Import Floats.
#[local] Set Warnings "-inexact-float".
Import ListNotations.
Open Scope Z_scope.

(** ** JavaScript values and operators used by the source *)

Module Js.

(** [s || d] on a possibly missing string: the empty string and [undefined]
    are both falsy. *)
Definition or_string (s : option string) (d : string) : string :=
  match s with
  | Some v => if String.eqb v EmptyString then d else v
  | None => d
  end.

(** [n || 0] on a possibly missing number. *)
Definition or_zero (n : option Z) : Z :=
  match n with
  | Some v => v
  | None => 0
  end.

(** [a || b] where both sides are possibly missing strings and the result
    is kept as it is (the right operand is returned unchanged when the left
    one is falsy). *)
Definition or_else (a b : option string) : option string :=
  match a with
  | Some v => if String.eqb v EmptyString then b else a
  | None => b
  end.

(** A JavaScript number that may result from a division. *)
Inductive number : Type :=
| Finite (q : Q)
| PosInfinity
| NegInfinity
| NaN.

Definition of_Z (z : Z) : number := Finite (inject_Z z).

(** [a / b] on two integers; the quotient is kept in lowest terms so that
    equal quotients are equal terms. The divisor is never the negative
    zero, which the sums of the source cannot produce. *)
Definition div (a b : Z) : number :=
  if b =? 0 then
    if 0 <? a then PosInfinity
    else if a <? 0 then NegInfinity
    else NaN
  else Finite (Qred (Qmake (a * Z.sgn b) (Z.to_pos (Z.abs b)))).

(** SameValueZero on map keys and set elements: a string or [undefined]. *)
Definition same_value (a b : option string) : bool :=
  match a, b with
  | Some x, Some y => String.eqb x y
  | None, None => true
  | _, _ => false
  end.

(** *** [Map]: an insertion-ordered association list *)
Section MapOps.
Context {V : Type}.

Definition Map : Type := list (option string * V).

Fixpoint get (m : Map) (k : option string) : option V :=
  match m with
  | [] => None
  | (k', v) :: rest => if same_value k k' then Some v else get rest k
  end.

(** [set] keeps the position of a key that is already present and
    appends a new key at the end. *)
Fixpoint set (m : Map) (k : option string) (v : V) : Map :=
  match m with
  | [] => [(k, v)]
  | (k', v') :: rest =>
      if same_value k k' then (k', v) :: rest
      else (k', v') :: set rest k v
  end.

Definition values (m : Map) : list V := List.map snd m.
Definition keys (m : Map) : list (option string) := List.map fst m.
End MapOps.
Arguments Map : clear implicits.

(** *** [Array.prototype.sort] with a comparator *)
Section Sort.
Context {A : Type} (compareFn : A -> A -> Z).

(** [x] originally precedes every element of [l]; it moves right only
    past elements that the comparator orders strictly before it. *)
Fixpoint insert (x : A) (l : list A) : list A :=
  match l with
  | [] => [x]
  | y :: rest =>
      if 0 <? compareFn x y then y :: insert x rest
      else x :: y :: rest
  end.

Fixpoint sort (l : list A) : list A :=
  match l with
  | [] => []
  | x :: rest => insert x (sort rest)
  end.
End Sort.

(** *** [[...new Set(l)]]: first occurrences, in order *)
Definition set_add (acc : list (option string)) (x : option string)
  : list (option string) :=
  if existsb (same_value x) acc then acc else acc ++ [x].

Definition spread_set (l : list (option string)) : list (option string) :=
  fold_left set_add l [].

End Js.

(** ** The records of the source *)

Module SaleItem.
Record t : Type := mk {
  product_name : option string;
  product_sku : option string;
  quantity : option Z;
  unit_price : option Z;
  total_price : option Z;
  category : option string
}.
End SaleItem.

Module Sale.
Record t : Type := mk {
  id : Z;
  customer_name : option string;
  customer_phone : option string;
  customer_type : option string;
  items : option (list SaleItem.t);
  total_amount : option Z
}.
End Sale.

Module ProductSold.
Record t : Type := mk {
  name : string;
  sku : string;
  category : string;
  quantity : Z;
  revenue : Z;
  avgPrice : Js.number
}.
End ProductSold.

Module CustomerPurchase.
Record t : Type := mk {
  name : string;
  phone : string;
  type : string;
  orders : Z;
  totalSpent : Z;
  products : list (option string)
}.
End CustomerPurchase.

(** [sale.items || []] *)
Definition items_of (sale : Sale.t) : list SaleItem.t :=
  match Sale.items sale with
  | Some l => l
  | None => []
  end.

(** ** [productsSold] *)

(** [item.product_sku || item.product_name] *)
Definition product_key (item : SaleItem.t) : option string :=
  Js.or_else (SaleItem.product_sku item) (SaleItem.product_name item).

(** The object literal stored for a key met for the first time. *)
Definition product_new (item : SaleItem.t) : ProductSold.t :=
  {| ProductSold.name := Js.or_string (SaleItem.product_name item) "Unknown Product";
     ProductSold.sku := Js.or_string (SaleItem.product_sku item) "-";
     ProductSold.category := Js.or_string (SaleItem.category item) "Uncategorized";
     ProductSold.quantity := Js.or_zero (SaleItem.quantity item);
     ProductSold.revenue := Js.or_zero (SaleItem.total_price item);
     ProductSold.avgPrice := Js.of_Z (Js.or_zero (SaleItem.unit_price item)) |}.

(** The three assignments made on an [existing] entry. *)
Definition product_merge (existing : ProductSold.t) (item : SaleItem.t)
  : ProductSold.t :=
  let quantity := ProductSold.quantity existing + Js.or_zero (SaleItem.quantity item) in
  let revenue := ProductSold.revenue existing + Js.or_zero (SaleItem.total_price item) in
  {| ProductSold.name := ProductSold.name existing;
     ProductSold.sku := ProductSold.sku existing;
     ProductSold.category := ProductSold.category existing;
     ProductSold.quantity := quantity;
     ProductSold.revenue := revenue;
     ProductSold.avgPrice := Js.div revenue quantity |}.

(** Body of the inner [forEach]. *)
Definition product_step (productMap : Js.Map ProductSold.t) (item : SaleItem.t)
  : Js.Map ProductSold.t :=
  let key := product_key item in
  match Js.get productMap key with
  | Some existing => Js.set productMap key (product_merge existing item)
  | None => Js.set productMap key (product_new item)
  end.

(** The two nested [forEach] loops, from the empty map. *)
Definition productMap (sales : list Sale.t) : Js.Map ProductSold.t :=
  fold_left (fun m sale => fold_left product_step (items_of sale) m) sales [].

(** [(a, b) => b.revenue - a.revenue] *)
Definition by_revenue (a b : ProductSold.t) : Z :=
  ProductSold.revenue b - ProductSold.revenue a.

(** [salesData] is [None] while it is missing or not an array. *)
Definition productsSold (salesData : option (list Sale.t)) : list ProductSold.t :=
  match salesData with
  | None => []
  | Some sales => Js.sort by_revenue (Js.values (productMap sales))
  end.

(** ** [customerPurchases] *)

(** [sale.customer_name || 'Walk-in Customer'] *)
Definition customer_key (sale : Sale.t) : string :=
  Js.or_string (Sale.customer_name sale) "Walk-in Customer".

(** [(sale.items || []).map(item => item.product_name)] *)
Definition productNames (sale : Sale.t) : list (option string) :=
  List.map SaleItem.product_name (items_of sale).

Definition customer_new (sale : Sale.t) : CustomerPurchase.t :=
  {| CustomerPurchase.name := customer_key sale;
     CustomerPurchase.phone := Js.or_string (Sale.customer_phone sale) "-";
     CustomerPurchase.type := Js.or_string (Sale.customer_type sale) "Individual";
     CustomerPurchase.orders := 1;
     CustomerPurchase.totalSpent := Js.or_zero (Sale.total_amount sale);
     CustomerPurchase.products := productNames sale |}.

Definition customer_merge (existing : CustomerPurchase.t) (sale : Sale.t)
  : CustomerPurchase.t :=
  {| CustomerPurchase.name := CustomerPurchase.name existing;
     CustomerPurchase.phone := CustomerPurchase.phone existing;
     CustomerPurchase.type := CustomerPurchase.type existing;
     CustomerPurchase.orders := CustomerPurchase.orders existing + 1;
     CustomerPurchase.totalSpent :=
       CustomerPurchase.totalSpent existing + Js.or_zero (Sale.total_amount sale);
     CustomerPurchase.products :=
       Js.spread_set (CustomerPurchase.products existing ++ productNames sale) |}.

(** Body of the [forEach]. *)
Definition customer_step (customerMap : Js.Map CustomerPurchase.t) (sale : Sale.t)
  : Js.Map CustomerPurchase.t :=
  let key := Some (customer_key sale) in
  match Js.get customerMap key with
  | Some existing => Js.set customerMap key (customer_merge existing sale)
  | None => Js.set customerMap key (customer_new sale)
  end.

Definition customerMap (sales : list Sale.t) : Js.Map CustomerPurchase.t :=
  fold_left customer_step sales [].

(** [(a, b) => b.totalSpent - a.totalSpent] *)
Definition by_totalSpent (a b : CustomerPurchase.t) : Z :=
  CustomerPurchase.totalSpent b - CustomerPurchase.totalSpent a.

Definition customerPurchases (salesData : option (list Sale.t))
  : list CustomerPurchase.t :=
  match salesData with
  | None => []
  | Some sales => Js.sort by_totalSpent (Js.values (customerMap sales))
  end.

(** The reducers share one shape: look the key up, merge into the entry found
    or store a fresh one. [Grouping.step] is that shape; [product_step] and
    [customer_step] are instances of it. *)
Module Grouping.
Section Defs.
Context {X V : Type}.
Variable key : X -> option string.
Variable new : X -> V.
Variable merge : V -> X -> V.

Definition step (m : Js.Map V) (x : X) : Js.Map V :=
  match Js.get m (key x) with
  | Some existing => Js.set m (key x) (merge existing x)
  | None => Js.set m (key x) (new x)
  end.

(** What one element does to the entry of its own key. *)
Definition absorb (entry : option V) (x : X) : option V :=
  match entry with
  | Some existing => Some (merge existing x)
  | None => Some (new x)
  end.

(** The entry built from the elements of one key, in input order. *)
Definition summary (xs : list X) : option V := fold_left absorb xs None.

(** The elements whose key is [k]. *)
Definition group (k : option string) (xs : list X) : list X :=
  filter (fun x => Js.same_value k (key x)) xs.
End Defs.
End Grouping.

(** All line items of all records, in the order the loops visit them. *)
Definition all_items (sales : list Sale.t) : list SaleItem.t :=
  flat_map items_of sales.

(** First occurrences of a list of keys, written by recursion on the list. *)
Fixpoint first_occurrences (l : list (option string)) : list (option string) :=
  match l with
  | [] => []
  | x :: rest =>
      x :: filter (fun y => negb (Js.same_value y x)) (first_occurrences rest)
  end.

Definition sumZ (l : list Z) : Z := fold_right Z.add 0 l.


(** The defaulted numeric fields read by the reducers. *)
Definition item_quantity (item : SaleItem.t) : Z :=
  Js.or_zero (SaleItem.quantity item).
Definition item_total (item : SaleItem.t) : Z :=
  Js.or_zero (SaleItem.total_price item).
Definition item_unit (item : SaleItem.t) : Z :=
  Js.or_zero (SaleItem.unit_price item).
Definition sale_amount (sale : Sale.t) : Z :=
  Js.or_zero (Sale.total_amount sale).

(** The items that share the merge key [k], and the records of customer [n],
    in input order. *)
Definition items_with_key (k : option string) (sales : list Sale.t)
  : list SaleItem.t :=
  Grouping.group product_key k (all_items sales).

Definition sales_of_customer (n : string) (sales : list Sale.t) : list Sale.t :=
  Grouping.group (fun sale => Some (customer_key sale)) (Some n) sales.

(** The same record with every missing numeric field written out as 0 and a
    missing item list written out as the empty list. *)
Definition zero_fill_item (item : SaleItem.t) : SaleItem.t :=
  {| SaleItem.product_name := SaleItem.product_name item;
     SaleItem.product_sku := SaleItem.product_sku item;
     SaleItem.quantity := Some (item_quantity item);
     SaleItem.unit_price := Some (item_unit item);
     SaleItem.total_price := Some (item_total item);
     SaleItem.category := SaleItem.category item |}.

Definition zero_fill (sale : Sale.t) : Sale.t :=
  {| Sale.id := Sale.id sale;
     Sale.customer_name := Sale.customer_name sale;
     Sale.customer_phone := Sale.customer_phone sale;
     Sale.customer_type := Sale.customer_type sale;
     Sale.items := Some (map zero_fill_item (items_of sale));
     Sale.total_amount := Some (sale_amount sale) |}.

(** ** Sample records *)

Definition line (name sku : option string) (quantity unit_price total_price : Z)
  : SaleItem.t :=
  {| SaleItem.product_name := name;
     SaleItem.product_sku := sku;
     SaleItem.quantity := Some quantity;
     SaleItem.unit_price := Some unit_price;
     SaleItem.total_price := Some total_price;
     SaleItem.category := None |}.

Definition sale_to (id : Z) (customer phone : option string)
  (items : list SaleItem.t) (total_amount : Z) : Sale.t :=
  {| Sale.id := id;
     Sale.customer_name := customer;
     Sale.customer_phone := phone;
     Sale.customer_type := None;
     Sale.items := Some items;
     Sale.total_amount := Some total_amount |}.

(** The example of the specification: two orders of Alice for the article
    A1. *)
Definition alice_sales : list Sale.t :=
  [ sale_to 1 (Some "Alice"%string) (Some "0300"%string)
      [line (Some "Anchor bolt"%string) (Some "A1"%string) 2 50 100] 100;
    sale_to 2 (Some "Alice"%string) (Some "0301"%string)
      [line (Some "Anchor bolt M8"%string) (Some "A1"%string) 3 50 150] 150 ].

Definition alice_product : ProductSold.t :=
  {| ProductSold.name := "Anchor bolt";
     ProductSold.sku := "A1";
     ProductSold.category := "Uncategorized";
     ProductSold.quantity := 5;
     ProductSold.revenue := 250;
     ProductSold.avgPrice := Js.of_Z 50 |}.

Definition alice_customer : CustomerPurchase.t :=
  {| CustomerPurchase.name := "Alice";
     CustomerPurchase.phone := "0300";
     CustomerPurchase.type := "Individual";
     CustomerPurchase.orders := 2;
     CustomerPurchase.totalSpent := 250;
     CustomerPurchase.products :=
       [Some "Anchor bolt"%string; Some "Anchor bolt M8"%string] |}.

(** One order with two line items without a stock keeping unit: one with an
    empty product name, one whose product name is the fallback label. *)
Definition unlabeled_sale : Sale.t :=
  sale_to 1 (Some "Ali"%string) None
    [line (Some EmptyString) None 1 10 10;
     line (Some "Unknown Product"%string) None 2 20 40] 50.

(** The same with the product name missing instead of being the label. *)
Definition unnamed_sale : Sale.t :=
  sale_to 1 (Some "Ali"%string) None
    [line (Some EmptyString) None 1 10 10; line None None 2 20 40] 50.

Definition unknown_product (quantity revenue unit_price : Z) : ProductSold.t :=
  {| ProductSold.name := "Unknown Product";
     ProductSold.sku := "-";
     ProductSold.category := "Uncategorized";
     ProductSold.quantity := quantity;
     ProductSold.revenue := revenue;
     ProductSold.avgPrice := Js.of_Z unit_price |}.

(** One order that lists the same product on two lines. *)
Definition repeated_line_sale : Sale.t :=
  sale_to 1 (Some "Ali"%string) None
    [line (Some "Hammer"%string) (Some "H1"%string) 1 60 60;
     line (Some "Hammer"%string) (Some "H1"%string) 2 60 120] 180.

Definition repeated_line_customer : CustomerPurchase.t :=
  {| CustomerPurchase.name := "Ali";
     CustomerPurchase.phone := "-";
     CustomerPurchase.type := "Individual";
     CustomerPurchase.orders := 1;
     CustomerPurchase.totalSpent := 180;
     CustomerPurchase.products := [Some "Hammer"%string; Some "Hammer"%string] |}.

(** Three products with revenues 300, 300 and 100, and a fourth order that
    comes first with the least revenue. *)
Definition tied_sales : list Sale.t :=
  [ sale_to 1 (Some "Ali"%string) None
      [line (Some "Nails"%string) (Some "N1"%string) 10 5 50;
       line (Some "Pliers"%string) (Some "P1"%string) 1 300 300] 350;
    sale_to 2 (Some "Bilal"%string) None
      [line (Some "Saw"%string) (Some "S1"%string) 2 150 300;
       line (Some "Tape"%string) (Some "T1"%string) 4 25 100] 400 ].

Definition sold (name sku : string) (quantity revenue unit_price : Z)
  : ProductSold.t :=
  {| ProductSold.name := name;
     ProductSold.sku := sku;
     ProductSold.category := "Uncategorized";
     ProductSold.quantity := quantity;
     ProductSold.revenue := revenue;
     ProductSold.avgPrice := Js.of_Z unit_price |}.

(** Two line items of one article that add up to the quantity zero. *)
Definition returned_sale : Sale.t :=
  {| Sale.id := 1;
     Sale.customer_name := None;
     Sale.customer_phone := None;
     Sale.customer_type := None;
     Sale.items :=
       Some [ {| SaleItem.product_name := Some "Drill"%string;
                 SaleItem.product_sku := None;
                 SaleItem.quantity := None;
                 SaleItem.unit_price := None;
                 SaleItem.total_price := Some 500;
                 SaleItem.category := None |};
              {| SaleItem.product_name := Some "Drill"%string;
                 SaleItem.product_sku := None;
                 SaleItem.quantity := Some 0;
                 SaleItem.unit_price := None;
                 SaleItem.total_price := None;
                 SaleItem.category := None |} ];
     Sale.total_amount := None |}.

(** ** The reducers on doubles *)

Module Double.

(** Truthiness of a number: 0, -0 and NaN are falsy. *)
Definition truthy (x : float) : bool :=
  negb (PrimFloat.eqb x 0%float) && PrimFloat.eqb x x.

(** [n || 0] on a possibly missing number. *)
Definition or_zero (n : option float) : float :=
  match n with
  | Some v => if truthy v then v else 0%float
  | None => 0%float
  end.

(** What [sort] reads off the result of its comparator: whether it is
    positive, negative or neither; a NaN is neither. *)
Definition sign (x : float) : Z :=
  if PrimFloat.ltb 0%float x then 1
  else if PrimFloat.ltb x 0%float then -1
  else 0.

Module SaleItem.
Record t : Type := mk {
  product_name : option string;
  product_sku : option string;
  quantity : option float;
  unit_price : option float;
  total_price : option float;
  category : option string
}.
End SaleItem.

Module Sale.
Record t : Type := mk {
  id : Z;
  customer_name : option string;
  customer_phone : option string;
  customer_type : option string;
  items : option (list SaleItem.t);
  total_amount : option float
}.
End Sale.

Module ProductSold.
Record t : Type := mk {
  name : string;
  sku : string;
  category : string;
  quantity : float;
  revenue : float;
  avgPrice : float
}.
End ProductSold.

(** [orders] counts records one by one from 1; a count of array elements is
    an integer on which the doubles are exact. *)
Module CustomerPurchase.
Record t : Type := mk {
  name : string;
  phone : string;
  type : string;
  orders : Z;
  totalSpent : float;
  products : list (option string)
}.
End CustomerPurchase.

(** [sale.items || []] *)
Definition items_of (sale : Sale.t) : list SaleItem.t :=
  match Sale.items sale with
  | Some l => l
  | None => []
  end.

(** [item.product_sku || item.product_name] *)
Definition product_key (item : SaleItem.t) : option string :=
  Js.or_else (SaleItem.product_sku item) (SaleItem.product_name item).

Definition product_new (item : SaleItem.t) : ProductSold.t :=
  {| ProductSold.name := Js.or_string (SaleItem.product_name item) "Unknown Product";
     ProductSold.sku := Js.or_string (SaleItem.product_sku item) "-";
     ProductSold.category := Js.or_string (SaleItem.category item) "Uncategorized";
     ProductSold.quantity := or_zero (SaleItem.quantity item);
     ProductSold.revenue := or_zero (SaleItem.total_price item);
     ProductSold.avgPrice := or_zero (SaleItem.unit_price item) |}.

Definition product_merge (existing : ProductSold.t) (item : SaleItem.t)
  : ProductSold.t :=
  let quantity :=
    PrimFloat.add (ProductSold.quantity existing) (or_zero (SaleItem.quantity item)) in
  let revenue :=
    PrimFloat.add (ProductSold.revenue existing) (or_zero (SaleItem.total_price item)) in
  {| ProductSold.name := ProductSold.name existing;
     ProductSold.sku := ProductSold.sku existing;
     ProductSold.category := ProductSold.category existing;
     ProductSold.quantity := quantity;
     ProductSold.revenue := revenue;
     ProductSold.avgPrice := PrimFloat.div revenue quantity |}.

Definition product_step (productMap : Js.Map ProductSold.t) (item : SaleItem.t)
  : Js.Map ProductSold.t :=
  let key := product_key item in
  match Js.get productMap key with
  | Some existing => Js.set productMap key (product_merge existing item)
  | None => Js.set productMap key (product_new item)
  end.

Definition productMap (sales : list Sale.t) : Js.Map ProductSold.t :=
  fold_left (fun m sale => fold_left product_step (items_of sale) m) sales [].

(** [(a, b) => b.revenue - a.revenue], as [sort] reads it. *)
Definition by_revenue (a b : ProductSold.t) : Z :=
  sign (PrimFloat.sub (ProductSold.revenue b) (ProductSold.revenue a)).

Definition productsSold (salesData : option (list Sale.t)) : list ProductSold.t :=
  match salesData with
  | None => []
  | Some sales => Js.sort by_revenue (Js.values (productMap sales))
  end.

(** [sale.customer_name || 'Walk-in Customer'] *)
Definition customer_key (sale : Sale.t) : string :=
  Js.or_string (Sale.customer_name sale) "Walk-in Customer".

Definition productNames (sale : Sale.t) : list (option string) :=
  List.map SaleItem.product_name (items_of sale).

Definition customer_new (sale : Sale.t) : CustomerPurchase.t :=
  {| CustomerPurchase.name := customer_key sale;
     CustomerPurchase.phone := Js.or_string (Sale.customer_phone sale) "-";
     CustomerPurchase.type := Js.or_string (Sale.customer_type sale) "Individual";
     CustomerPurchase.orders := 1;
     CustomerPurchase.totalSpent := or_zero (Sale.total_amount sale);
     CustomerPurchase.products := productNames sale |}.

Definition customer_merge (existing : CustomerPurchase.t) (sale : Sale.t)
  : CustomerPurchase.t :=
  {| CustomerPurchase.name := CustomerPurchase.name existing;
     CustomerPurchase.phone := CustomerPurchase.phone existing;
     CustomerPurchase.type := CustomerPurchase.type existing;
     CustomerPurchase.orders := CustomerPurchase.orders existing + 1;
     CustomerPurchase.totalSpent :=
       PrimFloat.add (CustomerPurchase.totalSpent existing)
         (or_zero (Sale.total_amount sale));
     CustomerPurchase.products :=
       Js.spread_set (CustomerPurchase.products existing ++ productNames sale) |}.

Definition customer_step (customerMap : Js.Map CustomerPurchase.t) (sale : Sale.t)
  : Js.Map CustomerPurchase.t :=
  let key := Some (customer_key sale) in
  match Js.get customerMap key with
  | Some existing => Js.set customerMap key (customer_merge existing sale)
  | None => Js.set customerMap key (customer_new sale)
  end.

Definition customerMap (sales : list Sale.t) : Js.Map CustomerPurchase.t :=
  fold_left customer_step sales [].

(** [(a, b) => b.totalSpent - a.totalSpent], as [sort] reads it. *)
Definition by_totalSpent (a b : CustomerPurchase.t) : Z :=
  sign (PrimFloat.sub (CustomerPurchase.totalSpent b)
          (CustomerPurchase.totalSpent a)).

Definition customerPurchases (salesData : option (list Sale.t))
  : list CustomerPurchase.t :=
  match salesData with
  | None => []
  | Some sales => Js.sort by_totalSpent (Js.values (customerMap sales))
  end.

(** [l.reduce((sum, x) => sum + x, 0)], the way [totals] adds up a column. *)
Definition total (l : list float) : float := fold_left PrimFloat.add l 0%float.

(** The sum a merge key accumulates: the first value, then the others added
    one by one in input order. *)
Definition running (first : float) (rest : list float) : float :=
  fold_left PrimFloat.add rest first.

(** What the elements [xs] of one key accumulate in the field they feed
    with [d]; 0 stands in for a key without elements. *)
Definition accumulated {X : Type} (d : X -> float) (xs : list X) : float :=
  match xs with
  | [] => 0%float
  | x :: rest => running (d x) (map d rest)
  end.

Definition all_items (sales : list Sale.t) : list SaleItem.t :=
  flat_map items_of sales.

Definition item_quantity (item : SaleItem.t) : float :=
  or_zero (SaleItem.quantity item).
Definition item_total (item : SaleItem.t) : float :=
  or_zero (SaleItem.total_price item).
Definition item_unit (item : SaleItem.t) : float :=
  or_zero (SaleItem.unit_price item).
Definition sale_amount (sale : Sale.t) : float :=
  or_zero (Sale.total_amount sale).

Definition items_with_key (k : option string) (sales : list Sale.t)
  : list SaleItem.t :=
  Grouping.group product_key k (all_items sales).

Definition sales_of_customer (n : string) (sales : list Sale.t) : list Sale.t :=
  Grouping.group (fun sale => Some (customer_key sale)) (Some n) sales.



(** A range on which the addition of doubles is exact: the doubles in [good]
    stand for the integers [val] gives them, and two of them whose
    magnitudes add up to at most [bound] have a sum in [good] that stands
    for the sum of the integers. The integers of magnitude up to 2^53 are
    such a range of the IEEE doubles. *)
Record exact_range (good : float -> Prop) (val : float -> Z) (bound : Z)
  : Prop := {
  exact_zero : good 0%float /\ val 0%float = 0;
  exact_add : forall x y, good x -> good y ->
    Z.abs (val x) + Z.abs (val y) <= bound ->
    good (PrimFloat.add x y) /\ val (PrimFloat.add x y) = val x + val y;
  exact_inj : forall x y, good x -> good y -> val x = val y -> x = y
}.

(** The sum of the magnitudes of a list of doubles read as integers. *)
Definition magnitude (val : float -> Z) (l : list float) : Z :=
  fold_right (fun x acc => Z.abs (val x) + acc) 0 l.

(** The doubles of [l] lie in the range and their magnitudes add up to at
    most its bound. *)
Definition within (good : float -> Prop) (val : float -> Z) (bound : Z)
  (l : list float) : Prop :=
  Forall good l /\ magnitude val l <= bound.

(** *** Sample records with doubles *)

Definition line (name sku : option string) (quantity unit_price total_price : float)
  : SaleItem.t :=
  {| SaleItem.product_name := name;
     SaleItem.product_sku := sku;
     SaleItem.quantity := Some quantity;
     SaleItem.unit_price := Some unit_price;
     SaleItem.total_price := Some total_price;
     SaleItem.category := None |}.

Definition sale_to (id : Z) (customer phone : option string)
  (items : list SaleItem.t) (total_amount : float) : Sale.t :=
  {| Sale.id := id;
     Sale.customer_name := customer;
     Sale.customer_phone := phone;
     Sale.customer_type := None;
     Sale.items := Some items;
     Sale.total_amount := Some total_amount |}.

(** One order with three lines sold by weight: 0.1 and then 10.5 of article
    A, 0.2 of article B, at the unit price 1. *)
Definition fraction_sale : Sale.t :=
  sale_to 1 (Some "Ali"%string) None
    [line (Some "Nails"%string) (Some "A"%string) 0.1 1 0.1;
     line (Some "Screws"%string) (Some "B"%string) 0.2 1 0.2;
     line (Some "Nails"%string) (Some "A"%string) 10.5 1 10.5] 10.8.


(** Two orders of Alice for the article A1, under two product names and two
    phone numbers, with whole amounts. *)
Definition alice_sales : list Sale.t :=
  [ sale_to 1 (Some "Alice"%string) (Some "0300"%string)
      [line (Some "Anchor bolt"%string) (Some "A1"%string) 1 1 1] 1;
    sale_to 2 (Some "Alice"%string) (Some "0301"%string)
      [line (Some "Anchor bolt M8"%string) (Some "A1"%string) 2 1 2] 2 ].

Definition alice_product : ProductSold.t :=
  {| ProductSold.name := "Anchor bolt";
     ProductSold.sku := "A1";
     ProductSold.category := "Uncategorized";
     ProductSold.quantity := 3;
     ProductSold.revenue := 3;
     ProductSold.avgPrice := 1 |}.

Definition alice_customer : CustomerPurchase.t :=
  {| CustomerPurchase.name := "Alice";
     CustomerPurchase.phone := "0300";
     CustomerPurchase.type := "Individual";
     CustomerPurchase.orders := 2;
     CustomerPurchase.totalSpent := 3;
     CustomerPurchase.products :=
       [Some "Anchor bolt"%string; Some "Anchor bolt M8"%string] |}.


(** Two hammers listed at 60 each and sold for 100 together; and the same
    order with a second line of the hammer that adds nothing. *)
Definition discounted_sale : Sale.t :=
  sale_to 1 (Some "Ali"%string) None
    [line (Some "Hammer"%string) (Some "H1"%string) 2 60 100] 100.

Definition discounted_sale_twice : Sale.t :=
  sale_to 1 (Some "Ali"%string) None
    [line (Some "Hammer"%string) (Some "H1"%string) 2 60 100;
     line (Some "Hammer"%string) (Some "H1"%string) 0 0 0] 100.

Definition hammer (avgPrice : float) : ProductSold.t :=
  {| ProductSold.name := "Hammer";
     ProductSold.sku := "H1";
     ProductSold.category := "Uncategorized";
     ProductSold.quantity := 2;
     ProductSold.revenue := 100;
     ProductSold.avgPrice := avgPrice |}.

(** A range of five doubles on which the addition is exact by evaluation. *)
Definition small_good (x : float) : Prop :=
  In x [0; 1; 2; 3; 4]%float.

Definition small_val (x : float) : Z :=
  if PrimFloat.eqb x 1 then 1
  else if PrimFloat.eqb x 2 then 2
  else if PrimFloat.eqb x 3 then 3
  else if PrimFloat.eqb x 4 then 4
  else 0.

End Double.

(** ** The figures and cells derived from the two summaries *)

(** [customerPurchases.length], the field [uniqueCustomers] of [totals]. *)
Definition uniqueCustomers (salesData : option (list Sale.t)) : nat :=
  List.length (customerPurchases salesData).

(** [customer.products.slice(0, 3)], the products that get a badge. *)
Definition shown_products {A : Type} (products : list A) : list A :=
  firstn 3 products.

(** [customer.products.length > 3 && ... customer.products.length - 3]: the
    number on the closing badge, when there is one. *)
Definition more_products {A : Type} (products : list A) : option nat :=
  if (3 <? List.length products)%nat
  then Some (List.length products - 3)%nat
  else None.

(** [product.length > 15 ? product.substring(0, 15) + '...' : product]; the
    characters of the string stand for the code units of the source. *)
Definition short_label (product : string) : string :=
  if (15 <? String.length product)%nat
  then (String.substring 0 15 product ++ "...")%string
  else product.

(** ** The month name of the report tabs *)

(** [a[i]] for an integer index: [undefined] outside the array. *)
Definition array_get {A : Type} (a : list A) (i : Z) : option A :=
  if i <? 0 then None else nth_error a (Z.to_nat i).

Definition months : list string :=
  ["Jan"; "Feb"; "Mar"; "Apr"; "May"; "Jun";
   "Jul"; "Aug"; "Sep"; "Oct"; "Nov"; "Dec"]%string.

(** [months[month - 1] || ''] *)
Definition getMonthName (month : Z) : string :=
  Js.or_string (array_get months (month - 1)) EmptyString.

(** ** The customer purchases tab *)

(** The rows of the tab. The declaration of their type is in
    [services/reportsApi], outside the sources at hand; the fields are those
    the tab reads for filtering, sorting and totals, with the types its uses
    give them: the amounts are strings, passed to [parseFloat]. *)
Module MonthlyCustomerPurchase.
Record t : Type := mk {
  customer_id : Z;
  customer_name : string;
  customer_phone : string;
  customer_type : string;
  times_purchased : Z;
  total_purchase_value : string;
  outstanding_balance : string;
  cash_purchases : string;
  credit_purchases : string
}.
End MonthlyCustomerPurchase.

(** [s.includes(t)]: [t] occurs in [s]. *)
Fixpoint includes (s t : string) : bool :=
  String.prefix t s
  || match s with
     | EmptyString => false
     | String _ rest => includes rest t
     end.

(** [[...new Set(l)]] on strings. *)
Definition spread_string_set (l : list string) : list string :=
  fold_left (fun acc x => if existsb (String.eqb x) acc then acc else acc ++ [x])
    l [].

Section CustomerPurchasesTab.
(** The two library functions applied to the strings of a row: the double
    read from a string, which is NaN when the string has no number in front,
    and the lower-case form of a string. *)
Variable parseFloat : string -> float.
Variable toLowerCase : string -> string.

(** The state of the tab. *)
Variable search typeFilter sortBy : string.

(** [data.map(c => c.customer_type)] without repetitions. *)
Definition types (data : list MonthlyCustomerPurchase.t) : list string :=
  spread_string_set (map MonthlyCustomerPurchase.customer_type data).

(** The predicate of [filter]. *)
Definition row_matches (c : MonthlyCustomerPurchase.t) : bool :=
  (String.eqb typeFilter "all"
   || String.eqb (MonthlyCustomerPurchase.customer_type c) typeFilter)
  && (includes (toLowerCase (MonthlyCustomerPurchase.customer_name c))
        (toLowerCase search)
      || includes (MonthlyCustomerPurchase.customer_phone c) search).

(** The comparator of [sort], as [sort] reads its result: the sign of the
    difference of two doubles, 0 when the difference is NaN, for the two keys
    that are parsed from strings; the difference of the two counts for the
    number of orders. *)
Definition compare_rows (a b : MonthlyCustomerPurchase.t) : Z :=
  if String.eqb sortBy "value" then
    Double.sign
      (PrimFloat.sub
         (parseFloat (MonthlyCustomerPurchase.total_purchase_value b))
         (parseFloat (MonthlyCustomerPurchase.total_purchase_value a)))
  else if String.eqb sortBy "orders" then
    MonthlyCustomerPurchase.times_purchased b
    - MonthlyCustomerPurchase.times_purchased a
  else if String.eqb sortBy "balance" then
    Double.sign
      (PrimFloat.sub
         (parseFloat (MonthlyCustomerPurchase.outstanding_balance b))
         (parseFloat (MonthlyCustomerPurchase.outstanding_balance a)))
  else 0.

Definition filteredData (data : list MonthlyCustomerPurchase.t)
  : list MonthlyCustomerPurchase.t :=
  Js.sort compare_rows (filter row_matches data).

End CustomerPurchasesTab.

(** Sample rows of the customer purchases tab. *)
Definition row (id : Z) (name phone type : string) (orders : Z) (value : string)
  : MonthlyCustomerPurchase.t :=
  {| MonthlyCustomerPurchase.customer_id := id;
     MonthlyCustomerPurchase.customer_name := name;
     MonthlyCustomerPurchase.customer_phone := phone;
     MonthlyCustomerPurchase.customer_type := type;
     MonthlyCustomerPurchase.times_purchased := orders;
     MonthlyCustomerPurchase.total_purchase_value := value;
     MonthlyCustomerPurchase.outstanding_balance := "0";
     MonthlyCustomerPurchase.cash_purchases := value;
     MonthlyCustomerPurchase.credit_purchases := "0" |}.

Definition sample_rows : list MonthlyCustomerPurchase.t :=
  [ row 1 "Ali" "0300" "Permanent" 2 "500";
    row 2 "Bilal" "0301" "Temporary" 5 "200";
    row 3 "Chand" "0302" "Permanent" 5 "900" ].

(** Stand-ins for the two library functions on the sample rows: the length
    of the string as its amount, and the string itself as its lower-case
    form. *)
Definition sample_parse (s : string) : Z := Z.of_nat (String.length s).
Definition sample_lower (s : string) : string := s.

(** A stand-in for [parseFloat] on the sample rows: NaN on every string. *)
Definition sample_parse_double (s : string) : float := PrimFloat.nan.

(** ** The month options of the monthly report *)

(** [String(n)] and [`${n}`] for a natural number: its decimal digits. *)
Definition string_of_nat (n : nat) : string :=
  DecimalString.NilEmpty.string_of_uint (Nat.to_uint n).

(** [s.padStart(2, '0')] *)
Definition padStart2 (s : string) : string :=
  match String.length s with
  | O => "00"
  | S O => String "0"%char s
  | _ => s
  end.

(** [s.split('-')] *)
Fixpoint split_dash (s : string) : list string :=
  match s with
  | EmptyString => [EmptyString]
  | String c rest =>
      if Ascii.eqb c "-"%char then EmptyString :: split_dash rest
      else match split_dash rest with
           | piece :: pieces => String c piece :: pieces
           | [] => [String c EmptyString]
           end
  end.

(** [Number(s)] for a string of decimal digits, among them the empty string,
    which gives 0. [None] stands for every other string: the conversion of
    those is not modelled. *)
Definition Number (s : string) : option nat :=
  option_map Nat.of_uint (DecimalString.NilEmpty.uint_of_string s).

(** A month option without its label, which the date library formats. *)
Module MonthOption.
Record t : Type := mk {
  value : string;
  year : nat;
  month : nat
}.
End MonthOption.

(** The option pushed for a date with full year [year] and month index
    [month], counted from 0. *)
Definition monthOption (year month : nat) : MonthOption.t :=
  {| MonthOption.value :=
       (string_of_nat year ++ "-" ++ padStart2 (string_of_nat (month + 1)))%string;
     MonthOption.year := year;
     MonthOption.month := (month + 1)%nat |}.

(** [selectedMonth.split('-').map(Number)] *)
Definition parseSelectedMonth (selectedMonth : string) : list (option nat) :=
  map Number (split_dash selectedMonth).

(** ** The top products tab *)

(** The rows of the tab. The declaration of their type is in
    [services/reportsApi], outside the sources at hand; the fields are those
    the chart, the totals and the header read. *)
Module MonthlyTopProduct.
Record t : Type := mk {
  product_name : string;
  total_revenue : string;
  total_quantity : Z;
  month : Z;
  year : nat
}.
End MonthlyTopProduct.

Module ChartBar.
Record t : Type := mk {
  name : string;
  revenue : Z;
  quantity : Z
}.
End ChartBar.

(** What the component returns: the spinner, the notice that there is no
    data, or the report under its header line. *)
Inductive TabView : Type :=
| Spinner
| NoData
| Report (header : string) (chart : list ChartBar.t).

Section TopProductsTab.
Variable parseFloat : string -> Z.

(** [data.slice(0, 10).map(p => ({...}))] *)
Definition chartData (data : list MonthlyTopProduct.t) : list ChartBar.t :=
  map (fun p =>
         {| ChartBar.name := short_label (MonthlyTopProduct.product_name p);
            ChartBar.revenue := parseFloat (MonthlyTopProduct.total_revenue p);
            ChartBar.quantity := MonthlyTopProduct.total_quantity p |})
    (firstn 10 data).

(** The header line: the month and the year of the first row. *)
Definition header (data : list MonthlyTopProduct.t) : string :=
  match array_get data 0 with
  | Some first =>
      (getMonthName (MonthlyTopProduct.month first) ++ " "
       ++ string_of_nat (MonthlyTopProduct.year first))%string
  | None => "Current Month"
  end.

Definition TopProductsTab (data : list MonthlyTopProduct.t) (isLoading : bool)
  : TabView :=
  if isLoading then Spinner
  else if (List.length data =? 0)%nat then NoData
  else Report (header data) (chartData data).
End TopProductsTab.

(** ** Facts about the JavaScript operators *)

Lemma same_value_spec a b : reflect (a = b) (Js.same_value a b).
Proof.
  destruct a as [x|], b as [y|]; simpl; try (constructor; congruence).
  destruct (String.eqb_spec x y); constructor; congruence.
Qed.

Lemma same_value_refl a : Js.same_value a a = true.
Proof. destruct (same_value_spec a a); congruence. Qed.

Lemma same_value_sym a b : Js.same_value a b = Js.same_value b a.
Proof.
  destruct (same_value_spec a b), (same_value_spec b a); congruence.
Qed.

Ltac same_value_cases a b :=
  let E := fresh "E" in
  destruct (same_value_spec a b) as [E|E]; [try subst | idtac].

Section MapFacts.
Context {V : Type}.
Implicit Types (m : Js.Map V) (k : option string) (v : V).

Lemma get_set_same m k v : Js.get (Js.set m k v) k = Some v.
Proof.
  induction m as [|[k' v'] m IH]; simpl.
  - now rewrite same_value_refl.
  - destruct (Js.same_value k k') eqn:E; simpl; rewrite E; auto.
Qed.

Lemma get_set_other m k k' v :
  k' <> k -> Js.get (Js.set m k v) k' = Js.get m k'.
Proof.
  intros Hne. induction m as [|[k0 v0] m IH]; simpl.
  - same_value_cases k' k; congruence.
  - same_value_cases k k0; simpl.
    + same_value_cases k' k0; congruence.
    + now rewrite IH.
Qed.

Lemma get_None_keys m k : Js.get m k = None <-> ~ In k (Js.keys m).
Proof.
  induction m as [|[k' v'] m IH]; simpl.
  - tauto.
  - same_value_cases k k'.
    + split; [discriminate | tauto].
    + rewrite IH. split; [intros H [H'|H']; congruence | tauto].
Qed.

Lemma keys_set m k v :
  Js.keys (Js.set m k v) = Js.set_add (Js.keys m) k.
Proof.
  unfold Js.set_add. induction m as [|[k' v'] m IH]; simpl; auto.
  same_value_cases k k'; simpl; auto.
  rewrite IH. unfold Js.keys. destruct (existsb _ _); auto.
Qed.

Lemma values_set_present m k v old f :
  Js.get m k = Some old ->
  sumZ (map f (Js.values (Js.set m k v)))
  = sumZ (map f (Js.values m)) - f old + f v.
Proof.
  induction m as [|[k' v'] m IH]; simpl; [discriminate|].
  same_value_cases k k'; simpl; intros H.
  - injection H as ->. lia.
  - rewrite (IH H). lia.
Qed.

Lemma values_set_absent m k v f :
  Js.get m k = None ->
  sumZ (map f (Js.values (Js.set m k v))) = sumZ (map f (Js.values m)) + f v.
Proof.
  induction m as [|[k' v'] m IH]; simpl; [lia|].
  same_value_cases k k'; simpl; intros H; [discriminate|].
  rewrite (IH H). lia.
Qed.

Lemma get_In m k v : Js.get m k = Some v -> In (k, v) m.
Proof.
  induction m as [|[k' v'] m IH]; simpl; [discriminate|].
  same_value_cases k k'; intros H.
  - injection H as ->. now left.
  - right. auto.
Qed.

Lemma In_get m k v : NoDup (Js.keys m) -> In (k, v) m -> Js.get m k = Some v.
Proof.
  induction m as [|[k' v'] m IH]; simpl; [tauto|].
  intros Hnd [H|H].
  - injection H as -> ->. now rewrite same_value_refl.
  - inversion Hnd as [|? ? Hk Hnd']; subst.
    same_value_cases k k'.
    + exfalso. apply Hk. change k' with (fst (k', v)). now apply in_map.
    + auto.
Qed.
End MapFacts.

(** ** Facts about the shared reducer shape *)

Section GroupingFacts.
Context {X V : Type}.
Variable key : X -> option string.
Variable new : X -> V.
Variable merge : V -> X -> V.

Local Abbreviation step := (Grouping.step key new merge).
Local Abbreviation absorb := (Grouping.absorb new merge).
Local Abbreviation group := (Grouping.group key).
Local Abbreviation summary := (Grouping.summary new merge).

Lemma get_step m x k :
  Js.get (step m x) k
  = if Js.same_value k (key x) then absorb (Js.get m k) x else Js.get m k.
Proof.
  unfold Grouping.step, Grouping.absorb.
  same_value_cases k (key x).
  - destruct (Js.get m (key x)); now rewrite get_set_same.
  - destruct (Js.get m (key x)); now rewrite get_set_other.
Qed.

Lemma get_fold_step xs : forall m k,
  Js.get (fold_left step xs m) k = fold_left absorb (group k xs) (Js.get m k).
Proof.
  induction xs as [|x xs IH]; intros m k; simpl; auto.
  rewrite IH, get_step.
  destruct (Js.same_value k (key x)); reflexivity.
Qed.

Lemma get_fold_step_empty xs k :
  Js.get (fold_left step xs []) k = summary (group k xs).
Proof. apply get_fold_step. Qed.

Lemma keys_step m x : Js.keys (step m x) = Js.set_add (Js.keys m) (key x).
Proof.
  unfold Grouping.step. destruct (Js.get m (key x)); apply keys_set.
Qed.

Lemma keys_fold_step xs : forall m,
  Js.keys (fold_left step xs m) = fold_left Js.set_add (map key xs) (Js.keys m).
Proof.
  induction xs as [|x xs IH]; intros m; simpl; auto.
  now rewrite IH, keys_step.
Qed.

(** A field that [new] initialises with [d x] and [merge] increases by
    [d x] sums, over the whole map, to the sum of [d] over the input. *)
Section Additive.
Variable f : V -> Z.
Variable d : X -> Z.
Hypothesis f_new : forall x, f (new x) = d x.
Hypothesis f_merge : forall e x, f (merge e x) = f e + d x.

Lemma sum_step m x :
  sumZ (map f (Js.values (step m x))) = sumZ (map f (Js.values m)) + d x.
Proof.
  unfold Grouping.step. destruct (Js.get m (key x)) as [e|] eqn:E.
  - rewrite (values_set_present _ _ _ e f E), f_merge. lia.
  - rewrite (values_set_absent _ _ _ f E), f_new. lia.
Qed.

Lemma sum_fold_step xs : forall m,
  sumZ (map f (Js.values (fold_left step xs m)))
  = sumZ (map f (Js.values m)) + sumZ (map d xs).
Proof.
  induction xs as [|x xs IH]; intros m; simpl; [lia|].
  rewrite IH, sum_step. lia.
Qed.

Lemma f_fold_absorb xs : forall e,
  option_map f (fold_left absorb xs (Some e)) = Some (f e + sumZ (map d xs)).
Proof.
  induction xs as [|x xs IH]; intros e; simpl.
  - f_equal. lia.
  - rewrite IH, f_merge. f_equal. lia.
Qed.

Lemma f_summary x xs :
  option_map f (summary (x :: xs)) = Some (sumZ (map d (x :: xs))).
Proof.
  unfold Grouping.summary. simpl. now rewrite f_fold_absorb, f_new.
Qed.
End Additive.

(** A field that [merge] copies keeps the value [new] gave it. *)
Section Frame.
Context {F : Type}.
Variable f : V -> F.
Hypothesis f_merge : forall e x, f (merge e x) = f e.

Lemma frame_fold_absorb xs : forall e,
  option_map f (fold_left absorb xs (Some e)) = Some (f e).
Proof.
  induction xs as [|x xs IH]; intros e; simpl; auto.
  now rewrite IH, f_merge.
Qed.

Lemma frame_summary x xs :
  option_map f (summary (x :: xs)) = Some (f (new x)).
Proof. unfold Grouping.summary. simpl. apply frame_fold_absorb. Qed.
End Frame.

Lemma summary_None xs : summary xs = None -> xs = [].
Proof.
  destruct xs as [|x xs]; auto. unfold Grouping.summary. simpl.
  assert (H : forall l e, fold_left absorb l (Some e) <> None).
  { induction l as [|y l IH]; intros e; simpl; [discriminate | apply IH]. }
  intros E. now apply H in E.
Qed.

Lemma summary_snoc xs x : summary (xs ++ [x]) = absorb (summary xs) x.
Proof. unfold Grouping.summary. now rewrite fold_left_app. Qed.
End GroupingFacts.


(** ** Facts about [Js.sort] *)

Section SortFacts.
Context {A : Type}.
Variable compareFn : A -> A -> Z.

Lemma insert_perm x l : Permutation (Js.insert compareFn x l) (x :: l).
Proof.
  induction l as [|y l IH]; simpl; auto.
  destruct (0 <? compareFn x y); auto.
  rewrite IH. apply perm_swap.
Qed.

Lemma sort_perm l : Permutation (Js.sort compareFn l) l.
Proof.
  induction l as [|x l IH]; simpl; auto.
  rewrite insert_perm. now constructor.
Qed.

Lemma sort_In l x : In x (Js.sort compareFn l) <-> In x l.
Proof.
  split; apply Permutation_in; [|symmetry]; apply sort_perm.
Qed.




(** Ordering: with a comparator that is the difference of a numeric rank,
    the result is in descending order of the rank. *)
Variable rank : A -> Z.
Hypothesis compareFn_rank : forall a b, compareFn a b = rank b - rank a.


End SortFacts.


(** ** Facts about [Js.spread_set] and the order of the keys *)

Lemma existsb_same_value x l : existsb (Js.same_value x) l = true <-> In x l.
Proof.
  rewrite existsb_exists. split.
  - intros [y [Hy E]]. now destruct (same_value_spec x y); subst.
  - intros H. exists x. split; auto. apply same_value_refl.
Qed.

Lemma filter_filter {A} (p q : A -> bool) l :
  filter p (filter q l) = filter (fun x => q x && p x) l.
Proof.
  induction l as [|x l IH]; simpl; auto.
  destruct (q x); simpl; [destruct (p x)|]; now rewrite IH.
Qed.

Lemma first_occurrences_In l x : In x (first_occurrences l) <-> In x l.
Proof.
  induction l as [|y l IH]; simpl; [tauto|].
  rewrite filter_In, IH.
  same_value_cases x y; simpl; [tauto|].
  split; [tauto|]. intros [H|H]; [congruence | tauto].
Qed.

Lemma first_occurrences_NoDup l : NoDup (first_occurrences l).
Proof.
  induction l as [|y l IH]; simpl; constructor.
  - rewrite filter_In, same_value_refl. simpl. intros [_ H]. discriminate.
  - now apply NoDup_filter.
Qed.

Lemma fold_set_add l : forall acc,
  fold_left Js.set_add l acc
  = acc ++ filter (fun y => negb (existsb (Js.same_value y) acc))
             (first_occurrences l).
Proof.
  induction l as [|x l IH]; intros acc; simpl.
  - now rewrite app_nil_r.
  - rewrite IH. unfold Js.set_add.
    destruct (existsb (Js.same_value x) acc) eqn:E; simpl.
    + f_equal. rewrite filter_filter. apply filter_ext. intros y.
      same_value_cases y x; simpl; auto. now rewrite E.
    + rewrite <- app_assoc. simpl. do 2 f_equal.
      rewrite filter_filter. apply filter_ext. intros y.
      rewrite existsb_app. simpl. rewrite orb_false_r.
      destruct (Js.same_value y x), (existsb (Js.same_value y) acc); reflexivity.
Qed.

Lemma spread_set_first_occurrences l : Js.spread_set l = first_occurrences l.
Proof.
  unfold Js.spread_set. rewrite fold_set_add. simpl.
  induction (first_occurrences l) as [|y r IH]; simpl; congruence.
Qed.

Lemma spread_set_In l x : In x (Js.spread_set l) <-> In x l.
Proof. rewrite spread_set_first_occurrences. apply first_occurrences_In. Qed.

Lemma spread_set_NoDup l : NoDup (Js.spread_set l).
Proof. rewrite spread_set_first_occurrences. apply first_occurrences_NoDup. Qed.

Section GroupingKeys.
Context {X V : Type}.
Variable key : X -> option string.
Variable new : X -> V.
Variable merge : V -> X -> V.

Lemma keys_grouping xs :
  Js.keys (fold_left (Grouping.step key new merge) xs [])
  = first_occurrences (map key xs).
Proof.
  rewrite keys_fold_step. apply spread_set_first_occurrences.
Qed.

Lemma keys_grouping_NoDup xs :
  NoDup (Js.keys (fold_left (Grouping.step key new merge) xs [])).
Proof. rewrite keys_grouping. apply first_occurrences_NoDup. Qed.

(** The values of the final map are exactly the summaries of the groups. *)
Lemma values_grouping xs v :
  In v (Js.values (fold_left (Grouping.step key new merge) xs []))
  <-> exists k, In k (map key xs)
                /\ Grouping.summary new merge (Grouping.group key k xs) = Some v.
Proof.
  set (m := fold_left (Grouping.step key new merge) xs []).
  assert (Hnd : NoDup (Js.keys m)) by apply keys_grouping_NoDup.
  split.
  - intros H. apply in_map_iff in H as [[k v'] [<- H]]. simpl.
    exists k. split.
    + rewrite <- first_occurrences_In, <- keys_grouping.
      change k with (fst (k, v')). now apply in_map.
    + rewrite <- get_fold_step_empty. now apply In_get.
  - intros [k [_ H]]. rewrite <- get_fold_step_empty in H.
    apply get_In in H. change v with (snd (k, v)). now apply in_map.
Qed.

Lemma values_as_summaries xs :
  map Some (Js.values (fold_left (Grouping.step key new merge) xs []))
  = map (fun k => Grouping.summary new merge (Grouping.group key k xs))
        (first_occurrences (map key xs)).
Proof.
  rewrite <- keys_grouping.
  set (m := fold_left (Grouping.step key new merge) xs []).
  assert (Hnd : NoDup (Js.keys m)) by apply keys_grouping_NoDup.
  assert (Hget : forall k, Js.get m k
            = Grouping.summary new merge (Grouping.group key k xs))
    by (intros; apply get_fold_step_empty).
  unfold Js.values, Js.keys. rewrite !map_map.
  apply map_ext_in. intros [k v] Hin. simpl.
  rewrite <- Hget. symmetry. now apply In_get.
Qed.
End GroupingKeys.


(** ** The two reducers as instances of the shared shape *)

Lemma fold_left_flat_map {A B C : Type} (f : C -> B -> C) (g : A -> list B) l :
  forall c, fold_left (fun c a => fold_left f (g a) c) l c
            = fold_left f (flat_map g l) c.
Proof.
  induction l as [|a l IH]; intros c; simpl; auto.
  now rewrite fold_left_app, IH.
Qed.

Lemma productMap_grouping sales :
  productMap sales
  = fold_left (Grouping.step product_key product_new product_merge)
      (all_items sales) [].
Proof. unfold productMap, all_items. apply fold_left_flat_map. Qed.

Lemma customerMap_grouping sales :
  customerMap sales
  = fold_left (Grouping.step (fun sale => Some (customer_key sale))
                 customer_new customer_merge) sales [].
Proof. reflexivity. Qed.

Lemma sumZ_perm l l' : Permutation l l' -> sumZ l = sumZ l'.
Proof. induction 1; simpl; lia. Qed.

Lemma sumZ_sort {A} (cmp : A -> A -> Z) (f : A -> Z) l :
  sumZ (map f (Js.sort cmp l)) = sumZ (map f l).
Proof. apply sumZ_perm, Permutation_map, sort_perm. Qed.

Lemma sumZ_ones {A} (l : list A) : sumZ (map (fun _ => 1) l) = Z.of_nat (List.length l).
Proof.
  induction l as [|x l IH]; [reflexivity|].
  change (sumZ (map (fun _ => 1) (x :: l))) with (1 + sumZ (map (fun _ => 1) l)).
  rewrite IH. simpl List.length. lia.
Qed.

(** ** Empty input *)

(** C9: on the empty sequence of records both reducers return the empty
    array; so they do while the data is missing. *)
Theorem empty_input_empty_output :
  productsSold (Some []) = [] /\ customerPurchases (Some []) = []
  /\ productsSold None = [] /\ customerPurchases None = [].
Proof. repeat split. Qed.

(** ** Ordering of the product summaries *)




(** The three products with revenues 300, 300 and 100: the tied pair keeps
    the order in which its keys were met, ahead of the third. *)
Example tied_revenue_example :
  productsSold (Some tied_sales)
  = [ sold "Pliers" "P1" 1 300 300; sold "Saw" "S1" 2 300 150;
      sold "Tape" "T1" 4 100 25; sold "Nails" "N1" 10 50 5 ].
Proof. reflexivity. Qed.


(** ** Every output summary is the summary of one group of the input *)

Section GroupingEntries.
Context {X V : Type}.
Variable key : X -> option string.
Variable new : X -> V.
Variable merge : V -> X -> V.

Lemma group_key k xs x : In x (Grouping.group key k xs) -> key x = k.
Proof.
  unfold Grouping.group. rewrite filter_In. intros [_ H].
  now destruct (same_value_spec k (key x)).
Qed.

Lemma group_own_key xs x : In x xs -> In x (Grouping.group key (key x) xs).
Proof.
  intros H. unfold Grouping.group. rewrite filter_In.
  split; auto. apply same_value_refl.
Qed.

Lemma grouping_value xs v :
  In v (Js.values (fold_left (Grouping.step key new merge) xs [])) ->
  exists x rest,
    Grouping.group key (key x) xs = x :: rest
    /\ Grouping.summary new merge (x :: rest) = Some v.
Proof.
  intros H. apply values_grouping in H as [k [_ H]].
  destruct (Grouping.group key k xs) as [|x rest] eqn:G; [discriminate|].
  exists x, rest. split; auto.
  assert (key x = k) as -> by (apply (group_key k xs); rewrite G; now left).
  exact G.
Qed.

Lemma grouping_covers xs x :
  In x xs ->
  exists v, In v (Js.values (fold_left (Grouping.step key new merge) xs []))
            /\ Grouping.summary new merge (Grouping.group key (key x) xs) = Some v.
Proof.
  intros H.
  destruct (Grouping.summary new merge (Grouping.group key (key x) xs))
    as [v|] eqn:E.
  - exists v. split; auto. apply values_grouping. exists (key x).
    split; auto. now apply in_map.
  - apply summary_None in E. apply group_own_key in H. rewrite E in H.
    destruct H.
Qed.

Lemma summary_last_merge x rest v :
  rest <> [] ->
  Grouping.summary new merge (x :: rest) = Some v ->
  exists e y, v = merge e y.
Proof.
  intros Hne H. destruct (exists_last Hne) as [rest' [y ->]].
  change (x :: rest' ++ [y]) with ((x :: rest') ++ [y]) in H.
  rewrite summary_snoc in H.
  destruct (Grouping.summary new merge (x :: rest')) as [e|] eqn:E.
  - exists e, y. simpl in H. congruence.
  - apply summary_None in E. discriminate.
Qed.
End GroupingEntries.

Lemma productsSold_In sales s :
  In s (productsSold (Some sales))
  <-> In s (Js.values (fold_left
              (Grouping.step product_key product_new product_merge)
              (all_items sales) [])).
Proof. unfold productsSold. now rewrite sort_In, productMap_grouping. Qed.

Lemma customerPurchases_In sales c :
  In c (customerPurchases (Some sales))
  <-> In c (Js.values (fold_left
              (Grouping.step (fun sale => Some (customer_key sale))
                 customer_new customer_merge) sales [])).
Proof. unfold customerPurchases. now rewrite sort_In. Qed.

(** The name of a customer summary is the key of its group. *)
Lemma customer_summary_name x rest c :
  Grouping.summary customer_new customer_merge (x :: rest) = Some c ->
  CustomerPurchase.name c = customer_key x.
Proof.
  intros H.
  pose proof (frame_summary customer_new customer_merge CustomerPurchase.name
                (fun _ _ => eq_refl) x rest) as F.
  rewrite H in F. simpl in F. congruence.
Qed.

Lemma customer_group sales c :
  In c (customerPurchases (Some sales)) ->
  exists first rest,
    sales_of_customer (CustomerPurchase.name c) sales = first :: rest
    /\ Grouping.summary customer_new customer_merge (first :: rest) = Some c.
Proof.
  intros H. apply customerPurchases_In, grouping_value in H.
  destruct H as [x [rest [G S]]]. exists x, rest. split; auto.
  unfold sales_of_customer. now rewrite (customer_summary_name _ _ _ S).
Qed.

Lemma product_group sales s :
  In s (productsSold (Some sales)) ->
  exists first rest,
    items_with_key (product_key first) sales = first :: rest
    /\ Grouping.summary product_new product_merge (first :: rest) = Some s
    /\ Js.get (productMap sales) (product_key first) = Some s.
Proof.
  intros H. apply productsSold_In, grouping_value in H.
  destruct H as [first [rest [G S]]]. exists first, rest.
  repeat split; auto.
  rewrite productMap_grouping, get_fold_step_empty.
  unfold items_with_key in G. now rewrite G.
Qed.


(** The example of the specification, evaluated. *)
Example alice_example :
  productsSold (Some alice_sales) = [alice_product]
  /\ customerPurchases (Some alice_sales) = [alice_customer].
Proof. split; reflexivity. Qed.

(** ** Descriptive fields *)

(** C10: the name, the stock keeping unit and the category of a product
    summary are those of the first line item met with its merge key, with
    their defaults, and the phone and the type of a customer summary are
    those of the first record of the customer, with their defaults; a merge
    copies these fields and assigns only the accumulated ones. *)
Theorem descriptive_fields_first_wins (sales : list Sale.t) :
  (forall s, In s (productsSold (Some sales)) ->
     exists first rest,
       items_with_key (product_key first) sales = first :: rest
       /\ Js.get (productMap sales) (product_key first) = Some s
       /\ ProductSold.name s
          = Js.or_string (SaleItem.product_name first) "Unknown Product"
       /\ ProductSold.sku s = Js.or_string (SaleItem.product_sku first) "-"
       /\ ProductSold.category s
          = Js.or_string (SaleItem.category first) "Uncategorized")
  /\ (forall c, In c (customerPurchases (Some sales)) ->
       exists first rest,
         sales_of_customer (CustomerPurchase.name c) sales = first :: rest
         /\ CustomerPurchase.name c = customer_key first
         /\ CustomerPurchase.phone c
            = Js.or_string (Sale.customer_phone first) "-"
         /\ CustomerPurchase.type c
            = Js.or_string (Sale.customer_type first) "Individual")
  /\ (forall existing item,
       ProductSold.name (product_merge existing item) = ProductSold.name existing
       /\ ProductSold.sku (product_merge existing item) = ProductSold.sku existing
       /\ ProductSold.category (product_merge existing item)
          = ProductSold.category existing)
  /\ (forall existing sale,
       CustomerPurchase.name (customer_merge existing sale)
       = CustomerPurchase.name existing
       /\ CustomerPurchase.phone (customer_merge existing sale)
          = CustomerPurchase.phone existing
       /\ CustomerPurchase.type (customer_merge existing sale)
          = CustomerPurchase.type existing).
Proof.
  split; [|split; [|split; intros; repeat split]].
  - intros s H. apply product_group in H as [first [rest [G [S Hget]]]].
    exists first, rest. split; auto. split; auto.
    pose proof (frame_summary product_new product_merge ProductSold.name
                  (fun _ _ => eq_refl) first rest) as Fn.
    pose proof (frame_summary product_new product_merge ProductSold.sku
                  (fun _ _ => eq_refl) first rest) as Fs.
    pose proof (frame_summary product_new product_merge ProductSold.category
                  (fun _ _ => eq_refl) first rest) as Fc.
    rewrite S in Fn, Fs, Fc. simpl in Fn, Fs, Fc.
    repeat split; congruence.
  - intros c H. apply customer_group in H as [first [rest [G S]]].
    exists first, rest. split; auto.
    pose proof (frame_summary customer_new customer_merge CustomerPurchase.name
                  (fun _ _ => eq_refl) first rest) as Fn.
    pose proof (frame_summary customer_new customer_merge CustomerPurchase.phone
                  (fun _ _ => eq_refl) first rest) as Fp.
    pose proof (frame_summary customer_new customer_merge CustomerPurchase.type
                  (fun _ _ => eq_refl) first rest) as Ft.
    rewrite S in Fn, Fp, Ft. simpl in Fn, Fp, Ft.
    repeat split; congruence.
Qed.

(** The theorem at the two orders of Alice. *)
Lemma descriptive_fields_first_wins_witness :
  In alice_product (productsSold (Some alice_sales))
  /\ (exists first rest,
       items_with_key (product_key first) alice_sales = first :: rest
       /\ Js.get (productMap alice_sales) (product_key first)
          = Some alice_product
       /\ ProductSold.name alice_product
          = Js.or_string (SaleItem.product_name first) "Unknown Product"
       /\ ProductSold.sku alice_product
          = Js.or_string (SaleItem.product_sku first) "-"
       /\ ProductSold.category alice_product
          = Js.or_string (SaleItem.category first) "Uncategorized")
  /\ In alice_customer (customerPurchases (Some alice_sales))
  /\ exists first rest,
       sales_of_customer (CustomerPurchase.name alice_customer) alice_sales
       = first :: rest
       /\ CustomerPurchase.name alice_customer = customer_key first
       /\ CustomerPurchase.phone alice_customer
          = Js.or_string (Sale.customer_phone first) "-"
       /\ CustomerPurchase.type alice_customer
          = Js.or_string (Sale.customer_type first) "Individual".
Proof.
  destruct (descriptive_fields_first_wins alice_sales) as [Hp [Hc _]].
  split; [now left|]. split; [apply Hp; now left|].
  split; [now left|]. apply Hc. now left.
Defined.


(** ** Customer summaries *)

Lemma customer_step_get m sale :
  Js.get (customer_step m sale) (Some (customer_key sale))
  = Some (match Js.get m (Some (customer_key sale)) with
          | Some existing => customer_merge existing sale
          | None => customer_new sale
          end).
Proof.
  unfold customer_step.
  destruct (Js.get m (Some (customer_key sale))); apply get_set_same.
Qed.

Lemma customer_step_other m sale k :
  k <> Some (customer_key sale) ->
  Js.get (customer_step m sale) k = Js.get m k.
Proof.
  intros H. unfold customer_step.
  destruct (Js.get m (Some (customer_key sale))); now apply get_set_other.
Qed.

Lemma customer_names sales :
  map Some (map CustomerPurchase.name (Js.values (customerMap sales)))
  = Js.keys (customerMap sales).
Proof.
  unfold Js.values, Js.keys. rewrite !map_map. apply map_ext_in.
  intros [k c] H. simpl.
  assert (Hc : In c (customerPurchases (Some sales))).
  { unfold customerPurchases. apply sort_In.
    change c with (snd (k, c)). now apply in_map. }
  apply customer_group in Hc as [first [rest [G S]]].
  apply In_get in H; [|apply keys_grouping_NoDup].
  rewrite customerMap_grouping, get_fold_step_empty in H.
  destruct (Grouping.group _ k sales) as [|x xs] eqn:Gk.
  - discriminate.
  - rewrite (customer_summary_name _ _ _ H).
    apply (group_key (fun sale => Some (customer_key sale)) k sales x).
    rewrite Gk. now left.
Qed.

(** C6: the merge key of a record is its customer name, or the walk-in label
    when the name is missing or empty; processing a record adds 1 to the
    orders and the defaulted total amount to the total spent of the entry of
    its key and touches no other entry; in the result every record has the
    summary named by its key, no two summaries share a name, and a summary
    counts the records of its key and totals their amounts. *)
Theorem customer_key_and_totals (sales : list Sale.t) :
  (forall sale,
     (Sale.customer_name sale = None
      \/ Sale.customer_name sale = Some EmptyString ->
      customer_key sale = "Walk-in Customer"%string)
     /\ (forall n, n <> EmptyString -> Sale.customer_name sale = Some n ->
         customer_key sale = n))
  /\ (forall m sale,
       exists c,
         Js.get (customer_step m sale) (Some (customer_key sale)) = Some c
         /\ CustomerPurchase.orders c
            = match Js.get m (Some (customer_key sale)) with
              | Some existing => CustomerPurchase.orders existing
              | None => 0
              end + 1
         /\ CustomerPurchase.totalSpent c
            = match Js.get m (Some (customer_key sale)) with
              | Some existing => CustomerPurchase.totalSpent existing
              | None => 0
              end + sale_amount sale
         /\ (forall k, k <> Some (customer_key sale) ->
             Js.get (customer_step m sale) k = Js.get m k))
  /\ (forall sale, In sale sales ->
       exists c, In c (customerPurchases (Some sales))
                 /\ CustomerPurchase.name c = customer_key sale)
  /\ NoDup (map CustomerPurchase.name (customerPurchases (Some sales)))
  /\ (forall c, In c (customerPurchases (Some sales)) ->
       CustomerPurchase.orders c
       = Z.of_nat (List.length (sales_of_customer (CustomerPurchase.name c) sales))
       /\ CustomerPurchase.totalSpent c
          = sumZ (map sale_amount
                    (sales_of_customer (CustomerPurchase.name c) sales))).
Proof.
  split; [|split; [|split; [|split]]].
  - intros sale. unfold customer_key, Js.or_string. split.
    + intros [-> | ->]; reflexivity.
    + intros n Hn ->. destruct (String.eqb_spec n EmptyString); congruence.
  - intros m sale. eexists. split; [apply customer_step_get|].
    destruct (Js.get m (Some (customer_key sale))); simpl;
      repeat split; try lia; intros; now apply customer_step_other.
  - intros sale H.
    destruct (grouping_covers (fun sale => Some (customer_key sale))
                customer_new customer_merge sales sale H) as [c [Hc S]].
    exists c. split; [now apply customerPurchases_In|].
    simpl in S.
    destruct (Grouping.group _ _ sales) as [|x xs] eqn:G; [discriminate|].
    rewrite (customer_summary_name _ _ _ S).
    assert (E : Some (customer_key x) = Some (customer_key sale)).
    { apply (group_key (fun sale => Some (customer_key sale)) _ sales x).
      rewrite G. now left. }
    congruence.
  - unfold customerPurchases.
    apply (Permutation_NoDup
             (Permutation_map _ (Permutation_sym (sort_perm _ _)))).
    apply (NoDup_map_inv Some). rewrite customer_names.
    rewrite customerMap_grouping. apply keys_grouping_NoDup.
  - intros c H. apply customer_group in H as [first [rest [G S]]].
    rewrite G.
    pose proof (f_summary customer_new customer_merge CustomerPurchase.orders
                  (fun _ => 1) (fun _ => eq_refl) (fun _ _ => eq_refl)
                  first rest) as Fo.
    pose proof (f_summary customer_new customer_merge
                  CustomerPurchase.totalSpent sale_amount
                  (fun _ => eq_refl) (fun _ _ => eq_refl) first rest) as Ft.
    rewrite S in Fo, Ft. simpl option_map in Fo, Ft.
    rewrite sumZ_ones in Fo. split; congruence.
Qed.


(** The theorem at the two orders of Alice and at an order without a
    customer name. *)
Lemma customer_key_and_totals_witness :
  (Sale.customer_name returned_sale = None
   /\ customer_key returned_sale = "Walk-in Customer"%string)
  /\ (In (sale_to 1 (Some "Alice"%string) (Some "0300"%string)
           [line (Some "Anchor bolt"%string) (Some "A1"%string) 2 50 100] 100)
         alice_sales
      /\ exists c, In c (customerPurchases (Some alice_sales))
                   /\ CustomerPurchase.name c = "Alice"%string)
  /\ In alice_customer (customerPurchases (Some alice_sales))
  /\ CustomerPurchase.orders alice_customer
     = Z.of_nat (List.length
                   (sales_of_customer (CustomerPurchase.name alice_customer)
                      alice_sales))
  /\ CustomerPurchase.totalSpent alice_customer
     = sumZ (map sale_amount
               (sales_of_customer (CustomerPurchase.name alice_customer)
                  alice_sales)).
Proof.
  destruct (customer_key_and_totals alice_sales) as [Hk [_ [Hc [_ Ht]]]].
  split; [split; [reflexivity|]|split; [split; [now left|]|split; [now left|]]].
  - apply (proj1 (Hk returned_sale)). now left.
  - apply (Hc (sale_to 1 (Some "Alice"%string) (Some "0300"%string)
                 [line (Some "Anchor bolt"%string) (Some "A1"%string) 2 50 100]
                 100)).
    now left.
  - apply Ht. now left.
Defined.

(** ** Permuted input *)



(** The product names of a customer summary, as a set, are those of the line
    items of the records of the customer. *)
Lemma customer_products_In rest : forall first c p,
  Grouping.summary customer_new customer_merge (first :: rest) = Some c ->
  (In p (CustomerPurchase.products c)
   <-> exists sale, In sale (first :: rest) /\ In p (productNames sale)).
Proof.
  induction rest as [|y rest IH] using rev_ind; intros first c p S.
  - injection S as <-. simpl. split.
    + intros H. exists first. auto.
    + intros [sale [[<-|[]] H]]. exact H.
  - change (first :: rest ++ [y]) with ((first :: rest) ++ [y]) in *.
    rewrite summary_snoc in S.
    destruct (Grouping.summary customer_new customer_merge (first :: rest))
      as [e|] eqn:E; [|apply summary_None in E; discriminate].
    injection S as <-. simpl CustomerPurchase.products.
    rewrite spread_set_In, in_app_iff, (IH first e p E). split.
    + intros [[sale [Hs Hp]]|Hp].
      * exists sale. split; auto. apply in_or_app. now left.
      * exists y. split; auto. apply in_or_app. right. now left.
    + intros [sale [Hs Hp]]. apply in_app_or in Hs as [Hs|[<-|[]]].
      * left. exists sale. auto.
      * now right.
Qed.

(** ** Missing numeric fields *)

Lemma product_step_zero_fill m item :
  product_step m (zero_fill_item item) = product_step m item.
Proof. reflexivity. Qed.

Lemma customer_step_zero_fill m sale :
  customer_step m (zero_fill sale) = customer_step m sale.
Proof.
  unfold customer_step, customer_merge, customer_new, productNames.
  replace (map SaleItem.product_name (items_of (zero_fill sale)))
    with (map SaleItem.product_name (items_of sale)).
  - reflexivity.
  - unfold items_of at 2. simpl. rewrite map_map. reflexivity.
Qed.

Lemma fold_left_map {A B C} (f : C -> B -> C) (g : A -> B) l :
  forall c, fold_left f (map g l) c = fold_left (fun c a => f c (g a)) l c.
Proof. induction l as [|a l IH]; intros c; simpl; auto. Qed.

Lemma fold_left_ext {A C} (f g : C -> A -> C) l :
  (forall c a, f c a = g c a) ->
  forall c, fold_left f l c = fold_left g l c.
Proof.
  intros E. induction l as [|a l IH]; intros c; simpl; auto.
  now rewrite E, IH.
Qed.

Lemma productMap_zero_fill sales :
  productMap (map zero_fill sales) = productMap sales.
Proof.
  unfold productMap. rewrite fold_left_map. apply fold_left_ext.
  intros m sale. unfold items_of at 1. simpl.
  rewrite fold_left_map. apply fold_left_ext.
  intros m' item. apply product_step_zero_fill.
Qed.

Lemma customerMap_zero_fill sales :
  customerMap (map zero_fill sales) = customerMap sales.
Proof.
  unfold customerMap. rewrite fold_left_map. apply fold_left_ext.
  intros m sale. apply customer_step_zero_fill.
Qed.

(** C8: the reducers are defined on every input, with every combination of
    missing fields, and a missing quantity, unit price, total price or total
    amount is read as 0: the result is that of the same records with these
    fields written out as 0. A group whose quantities, missing or zero, add
    up to zero still has a summary, whose average price is the non-finite
    quotient. *)
Theorem missing_numbers_read_as_zero (salesData : option (list Sale.t)) :
  productsSold (option_map (map zero_fill) salesData) = productsSold salesData
  /\ customerPurchases (option_map (map zero_fill) salesData)
     = customerPurchases salesData
  /\ productsSold (Some [returned_sale])
     = [ {| ProductSold.name := "Drill";
            ProductSold.sku := "-";
            ProductSold.category := "Uncategorized";
            ProductSold.quantity := 0;
            ProductSold.revenue := 500;
            ProductSold.avgPrice := Js.PosInfinity |} ]
  /\ customerPurchases (Some [returned_sale])
     = [ {| CustomerPurchase.name := "Walk-in Customer";
            CustomerPurchase.phone := "-";
            CustomerPurchase.type := "Individual";
            CustomerPurchase.orders := 1;
            CustomerPurchase.totalSpent := 0;
            CustomerPurchase.products :=
              [Some "Drill"%string; Some "Drill"%string] |} ].
Proof.
  destruct salesData as [sales|]; simpl; repeat split.
  - now rewrite productMap_zero_fill.
  - now rewrite customerMap_zero_fill.
Qed.

(** ** The merge key of a line item *)

Lemma product_key_spec item :
  product_key item
  = match SaleItem.product_sku item with
    | Some sku => if String.eqb sku EmptyString
                  then SaleItem.product_name item else Some sku
    | None => SaleItem.product_name item
    end.
Proof. unfold product_key, Js.or_else. now destruct (SaleItem.product_sku item). Qed.

(** Line items of one map key are accumulated in one entry of the map. *)
Lemma product_same_key_one_entry sales item :
  In item (all_items sales) ->
  NoDup (Js.keys (productMap sales))
  /\ exists s,
       Js.get (productMap sales) (product_key item) = Some s
       /\ ProductSold.quantity s
          = sumZ (map item_quantity (items_with_key (product_key item) sales))
       /\ ProductSold.revenue s
          = sumZ (map item_total (items_with_key (product_key item) sales)).
Proof.
  intros H. rewrite productMap_grouping. split; [apply keys_grouping_NoDup|].
  rewrite get_fold_step_empty. fold (items_with_key (product_key item) sales).
  pose proof (group_own_key product_key _ _ H) as Hin.
  fold (items_with_key (product_key item) sales) in Hin.
  destruct (items_with_key (product_key item) sales) as [|x xs]; [destruct Hin|].
  destruct (Grouping.summary product_new product_merge (x :: xs))
    as [s|] eqn:S; [|apply summary_None in S; discriminate].
  pose proof (f_summary product_new product_merge ProductSold.quantity
                item_quantity (fun _ => eq_refl) (fun _ _ => eq_refl)
                x xs) as Fq.
  pose proof (f_summary product_new product_merge ProductSold.revenue
                item_total (fun _ => eq_refl) (fun _ _ => eq_refl)
                x xs) as Fr.
  rewrite S in Fq, Fr. simpl option_map in Fq, Fr.
  exists s. repeat split; congruence.
Qed.

(** C3 on the code: two line items without a stock keeping unit, one with an
    empty product name and one named by the fallback label, are both shown
    as the unknown product and yet are kept in two summaries; so are an
    empty and a missing product name. *)
Theorem unknown_product_is_split :
  productsSold (Some [unlabeled_sale])
  = [unknown_product 2 40 20; unknown_product 1 10 10]
  /\ productsSold (Some [unnamed_sale])
     = [unknown_product 2 40 20; unknown_product 1 10 10]
  /\ Js.keys (productMap [unlabeled_sale])
     = [Some EmptyString; Some "Unknown Product"%string]
  /\ Js.keys (productMap [unnamed_sale]) = [Some EmptyString; None].
Proof. repeat split. Qed.

(** ** The product names of a customer *)

Lemma customer_products_NoDup first rest c :
  rest <> [] ->
  Grouping.summary customer_new customer_merge (first :: rest) = Some c ->
  NoDup (CustomerPurchase.products c).
Proof.
  intros Hne S.
  destruct (summary_last_merge _ _ _ _ _ Hne S) as [e [y ->]].
  apply spread_set_NoDup.
Qed.

(** C7 on the code: a customer with a single order that lists one product on
    two lines has that product name twice in the summary. *)
Theorem single_order_products_repeat :
  customerPurchases (Some [repeated_line_sale]) = [repeated_line_customer]
  /\ ~ NoDup (CustomerPurchase.products repeated_line_customer).
Proof.
  split; [reflexivity|].
  intros H. inversion H as [|x l Hx _]. apply Hx. now left.
Qed.


(** * Further properties of the report code *)

(** ** Ordering of the customer summaries *)


(** ** How many summaries there are *)

Lemma first_occurrences_length l :
  (List.length (first_occurrences l) <= List.length l)%nat.
Proof.
  induction l as [|x l IH]; simpl; auto.
  pose proof (filter_length_le (fun y => negb (Js.same_value y x))
                (first_occurrences l)).
  lia.
Qed.

Lemma sort_length {A} (cmp : A -> A -> Z) l :
  List.length (Js.sort cmp l) = List.length l.
Proof. apply Permutation_length, sort_perm. Qed.

Lemma grouping_length {X V} (key : X -> option string) (new : X -> V) merge xs :
  List.length (Js.values (fold_left (Grouping.step key new merge) xs []))
  = List.length (first_occurrences (map key xs)).
Proof.
  rewrite <- (keys_grouping key new merge). unfold Js.values, Js.keys.
  now rewrite !length_map.
Qed.

(** X2: there are as many product summaries as there are distinct merge keys
    among the line items, never more than line items, and none exactly when
    the records have no line item at all. *)
Theorem productsSold_length (sales : list Sale.t) :
  List.length (productsSold (Some sales))
  = List.length (first_occurrences (map product_key (all_items sales)))
  /\ (List.length (productsSold (Some sales))
      <= List.length (all_items sales))%nat
  /\ (productsSold (Some sales) = [] <-> all_items sales = []).
Proof.
  assert (E : List.length (productsSold (Some sales))
              = List.length (first_occurrences
                               (map product_key (all_items sales)))).
  { unfold productsSold.
    rewrite sort_length, productMap_grouping. apply grouping_length. }
  split; [exact E|]. split.
  - rewrite E. pose proof (first_occurrences_length
                             (map product_key (all_items sales))) as L.
    now rewrite length_map in L.
  - split.
    + intros H. rewrite H in E.
      destruct (all_items sales); [reflexivity | discriminate E].
    + intros H. rewrite H in E. simpl in E.
      now apply length_zero_iff_nil.
Qed.

(** X3: the number of unique customers is the number of distinct customer
    keys among the records, never more than records, and zero exactly when
    there is no record. *)
Theorem uniqueCustomers_distinct_keys (sales : list Sale.t) :
  uniqueCustomers (Some sales)
  = List.length
      (first_occurrences (map (fun sale => Some (customer_key sale)) sales))
  /\ (uniqueCustomers (Some sales) <= List.length sales)%nat
  /\ (uniqueCustomers (Some sales) = 0%nat <-> sales = []).
Proof.
  assert (E : uniqueCustomers (Some sales)
              = List.length
                  (first_occurrences
                     (map (fun sale => Some (customer_key sale)) sales))).
  { unfold uniqueCustomers, customerPurchases.
    rewrite sort_length, customerMap_grouping. apply grouping_length. }
  split; [exact E|]. split.
  - rewrite E. pose proof (first_occurrences_length
                 (map (fun sale => Some (customer_key sale)) sales)) as L.
    now rewrite length_map in L.
  - split.
    + intros H. rewrite H in E.
      destruct sales; [reflexivity | discriminate E].
    + intros ->. reflexivity.
Qed.

(** ** What one summary accumulates *)

(** X4: the quantity and the revenue of a product summary are the sums of
    the defaulted quantities and total prices of exactly the line items that
    carry its merge key. *)
Theorem product_totals_per_key (sales : list Sale.t) (s : ProductSold.t) :
  In s (productsSold (Some sales)) ->
  exists first rest,
    items_with_key (product_key first) sales = first :: rest
    /\ Js.get (productMap sales) (product_key first) = Some s
    /\ ProductSold.quantity s = sumZ (map item_quantity (first :: rest))
    /\ ProductSold.revenue s = sumZ (map item_total (first :: rest)).
Proof.
  intros H. apply product_group in H as [first [rest [G [S Hget]]]].
  exists first, rest. split; auto. split; auto.
  pose proof (f_summary product_new product_merge ProductSold.quantity
                item_quantity (fun _ => eq_refl) (fun _ _ => eq_refl)
                first rest) as Fq.
  pose proof (f_summary product_new product_merge ProductSold.revenue
                item_total (fun _ => eq_refl) (fun _ _ => eq_refl)
                first rest) as Fr.
  rewrite S in Fq, Fr. simpl option_map in Fq, Fr. split; congruence.
Qed.

(** The theorem at the two orders of Alice. *)
Lemma product_totals_per_key_witness :
  In alice_product (productsSold (Some alice_sales))
  /\ exists first rest,
       items_with_key (product_key first) alice_sales = first :: rest
       /\ Js.get (productMap alice_sales) (product_key first)
          = Some alice_product
       /\ ProductSold.quantity alice_product
          = sumZ (map item_quantity (first :: rest))
       /\ ProductSold.revenue alice_product
          = sumZ (map item_total (first :: rest)).
Proof.
  split; [now left|].
  apply (product_totals_per_key alice_sales alice_product). now left.
Defined.

(** X5: the products of a customer summary are, as a set, the product names
    on the line items of the records of that customer; once the customer has
    two records or more, no name is listed twice. *)
Theorem customer_products_union (sales : list Sale.t) (c : CustomerPurchase.t) :
  In c (customerPurchases (Some sales)) ->
  (forall p,
     In p (CustomerPurchase.products c)
     <-> exists sale,
           In sale (sales_of_customer (CustomerPurchase.name c) sales)
           /\ In p (productNames sale))
  /\ ((2 <= List.length (sales_of_customer (CustomerPurchase.name c) sales))%nat ->
      NoDup (CustomerPurchase.products c)).
Proof.
  intros H. apply customer_group in H as [first [rest [G S]]].
  rewrite G. split.
  - intros p. now apply customer_products_In.
  - intros L. apply (customer_products_NoDup first rest); auto.
    destruct rest; [simpl in L; lia | discriminate].
Qed.

(** The theorem at the two orders of Alice. *)
Lemma customer_products_union_witness :
  In alice_customer (customerPurchases (Some alice_sales))
  /\ (2 <= List.length
             (sales_of_customer (CustomerPurchase.name alice_customer)
                alice_sales))%nat
  /\ NoDup (CustomerPurchase.products alice_customer).
Proof.
  split; [now left|]. split; [simpl; lia|].
  apply (customer_products_union alice_sales alice_customer).
  - now left.
  - simpl. lia.
Defined.

(** ** The product badges of a customer row *)

(** X7: the badges of a customer row account for every listed product: at
    most three products are shown, they are the first ones in order, the
    closing badge appears exactly when there are more than three, and its
    number is that of the products not shown. *)
Theorem product_badges_account_for_all {A : Type} (products : list A) :
  (List.length (shown_products products) <= 3)%nat
  /\ (exists hidden,
        products = shown_products products ++ hidden
        /\ match more_products products with
           | Some n => n = List.length hidden /\ hidden <> []
           | None => hidden = []
           end).
Proof.
  unfold shown_products, more_products. split; [apply firstn_le_length|].
  exists (skipn 3 products). split; [now rewrite firstn_skipn|].
  pose proof (length_skipn 3 products) as L.
  destruct (3 <? List.length products)%nat eqn:E.
  - apply Nat.ltb_lt in E. split; [lia|].
    intros H. rewrite H in L. simpl in L. lia.
  - apply Nat.ltb_ge in E. apply length_zero_iff_nil. lia.
Qed.

(** ** Shortened labels *)

Lemma string_length_append (a b : string) :
  String.length (a ++ b) = (String.length a + String.length b)%nat.
Proof. induction a as [|c a IH]; simpl; congruence. Qed.

Lemma substring_0_length n : forall s,
  String.length (String.substring 0 n s) = Nat.min n (String.length s).
Proof.
  induction n as [|n IH]; intros [|c s]; simpl; auto.
Qed.

Lemma substring_0_append n : forall a b,
  (n <= String.length a)%nat ->
  String.substring 0 n (a ++ b) = String.substring 0 n a.
Proof.
  induction n as [|n IH]; intros [|c a] b L; simpl in *; try lia.
  - now destruct b.
  - reflexivity.
  - f_equal. apply IH. lia.
Qed.

Lemma substring_0_idem n : forall s,
  String.substring 0 n (String.substring 0 n s) = String.substring 0 n s.
Proof.
  induction n as [|n IH]; intros [|c s]; simpl; auto. now rewrite IH.
Qed.

Lemma short_label_long product :
  (15 <? String.length product)%nat = true ->
  short_label product = (String.substring 0 15 product ++ "...")%string.
Proof. intros E. unfold short_label. now rewrite E. Qed.

Lemma short_label_short product :
  (15 <? String.length product)%nat = false -> short_label product = product.
Proof. intros E. unfold short_label. now rewrite E. Qed.

(** X8: a shortened label has at most 18 characters: a name of at most 15
    characters is left as it is, a longer one becomes 18 characters long; in
    both cases the first 15 characters are those of the name, and shortening
    a shortened label changes nothing. *)
Theorem short_label_bounds (product : string) :
  String.length (short_label product)
  = (if (15 <? String.length product)%nat then 18%nat
     else String.length product)
  /\ ((String.length product <= 15)%nat -> short_label product = product)
  /\ String.substring 0 15 (short_label product)
     = String.substring 0 15 product
  /\ short_label (short_label product) = short_label product.
Proof.
  destruct (15 <? String.length product)%nat eqn:E.
  - rewrite (short_label_long product E). apply Nat.ltb_lt in E.
    assert (T : String.length (String.substring 0 15 product ++ "...")
                = 18%nat).
    { rewrite string_length_append, substring_0_length.
      simpl String.length. lia. }
    repeat split; auto.
    + lia.
    + rewrite substring_0_append, substring_0_idem; auto.
      rewrite substring_0_length. lia.
    + rewrite short_label_long by now rewrite T.
      rewrite substring_0_append, substring_0_idem; auto.
      rewrite substring_0_length. lia.
  - rewrite (short_label_short product E). repeat split; auto.
    now apply short_label_short.
Qed.

(** The theorem at a name of six characters. *)
Lemma short_label_bounds_witness :
  (String.length "Hammer" <= 15)%nat /\ short_label "Hammer" = "Hammer"%string.
Proof.
  split; [simpl; lia|].
  apply (proj1 (proj2 (short_label_bounds "Hammer"))). simpl. lia.
Defined.


(** ** Month names *)

Lemma array_get_beyond {A} (a : list A) i :
  Z.of_nat (List.length a) <= i -> array_get a i = None.
Proof.
  intros H. unfold array_get. destruct (i <? 0) eqn:E; auto.
  apply nth_error_None. lia.
Qed.

(** X9: a month from 1 to 12 has a name of three characters, different
    months have different names, and every other month number gives the
    empty string. *)
Theorem getMonthName_range (month : Z) :
  (1 <= month <= 12 -> String.length (getMonthName month) = 3%nat)
  /\ (month < 1 \/ 12 < month -> getMonthName month = EmptyString)
  /\ (forall other,
        1 <= month <= 12 -> 1 <= other <= 12 ->
        getMonthName month = getMonthName other -> month = other).
Proof.
  assert (R : forall m, 1 <= m <= 12 ->
            m = 1 \/ m = 2 \/ m = 3 \/ m = 4 \/ m = 5 \/ m = 6 \/ m = 7
            \/ m = 8 \/ m = 9 \/ m = 10 \/ m = 11 \/ m = 12) by (intros; lia).
  split; [|split].
  - intros H. apply R in H.
    repeat (destruct H as [->|H]; [reflexivity|]). now subst.
  - intros [H|H]; unfold getMonthName.
    + unfold array_get. replace (month - 1 <? 0) with true; auto.
      symmetry. apply Z.ltb_lt. lia.
    + rewrite array_get_beyond; auto. simpl. lia.
  - intros other Hm Ho. apply R in Hm. apply R in Ho.
    repeat (destruct Hm as [->|Hm]);
      repeat (destruct Ho as [->|Ho]);
      subst; intros E; try reflexivity; discriminate E.
Qed.

(** The theorem at March, at the month number 13 and at March and April. *)
Lemma getMonthName_range_witness :
  (1 <= 3 <= 12 /\ String.length (getMonthName 3) = 3%nat)
  /\ ((13 < 1 \/ 12 < 13) /\ getMonthName 13 = EmptyString)
  /\ (getMonthName 3 = getMonthName 3 /\ 3 = 3).
Proof.
  destruct (getMonthName_range 3) as [H3 [_ Hinj]].
  destruct (getMonthName_range 13) as [_ [H13 _]].
  split; [split; [lia | apply H3; lia]|].
  split; [split; [right; lia | apply H13; right; lia]|].
  split; [reflexivity | apply Hinj; [lia | lia | reflexivity]].
Defined.

(** ** Searching and deduplicating strings *)

Lemma prefix_spec t : forall s,
  String.prefix t s = true <-> exists b, s = (t ++ b)%string.
Proof.
  induction t as [|c t IH]; intros [|d s]; simpl.
  - split; [intros _; now exists EmptyString | reflexivity].
  - split; [intros _; now exists (String d s) | reflexivity].
  - split; [discriminate | intros [b H]; discriminate H].
  - destruct (Ascii.ascii_dec c d) as [->|Hne].
    + rewrite IH. split; intros [b H]; exists b; congruence.
    + split; [discriminate | intros [b H]; congruence].
Qed.

Lemma includes_unfold s t :
  includes s t
  = (String.prefix t s
     || match s with
        | EmptyString => false
        | String _ rest => includes rest t
        end).
Proof. destruct s; reflexivity. Qed.

Lemma includes_spec s : forall t,
  includes s t = true <-> exists a b, s = (a ++ t ++ b)%string.
Proof.
  induction s as [|c s IH]; intros t;
    rewrite includes_unfold, orb_true_iff, prefix_spec.
  - split.
    + intros [[b H]|H]; [|discriminate]. now exists EmptyString, b.
    + intros [a [b H]]. left. destruct a; [|discriminate].
      now exists b.
  - rewrite IH. split.
    + intros [[b H]|[a [b H]]].
      * now exists EmptyString, b.
      * exists (String c a), b. simpl. congruence.
    + intros [[|d a] [b H]].
      * left. now exists b.
      * right. exists a, b. simpl in H. congruence.
Qed.

Lemma includes_empty s : includes s EmptyString = true.
Proof. apply includes_spec. now exists EmptyString, s. Qed.

Lemma existsb_Some x acc :
  existsb (Js.same_value (Some x)) (map Some acc) = existsb (String.eqb x) acc.
Proof. induction acc as [|y acc IH]; simpl; congruence. Qed.

Lemma fold_string_set_Some l : forall acc,
  map Some
    (fold_left
       (fun acc x => if existsb (String.eqb x) acc then acc else acc ++ [x])
       l acc)
  = fold_left Js.set_add (map Some l) (map Some acc).
Proof.
  induction l as [|x l IH]; intros acc; simpl; auto.
  rewrite IH. f_equal. unfold Js.set_add. rewrite existsb_Some.
  destruct (existsb (String.eqb x) acc); auto.
  now rewrite map_app.
Qed.

Lemma spread_string_set_Some l :
  map Some (spread_string_set l) = Js.spread_set (map Some l).
Proof. apply fold_string_set_Some. Qed.

Lemma spread_string_set_In l x : In x (spread_string_set l) <-> In x l.
Proof.
  split; intros H.
  - apply (in_map Some) in H. rewrite spread_string_set_Some in H.
    apply spread_set_In, in_map_iff in H as [y [E H]]. congruence.
  - apply (in_map Some), spread_set_In in H.
    rewrite <- spread_string_set_Some in H.
    apply in_map_iff in H as [y [E H]]. congruence.
Qed.

Lemma spread_string_set_NoDup l : NoDup (spread_string_set l).
Proof.
  apply (NoDup_map_inv Some). rewrite spread_string_set_Some.
  apply spread_set_NoDup.
Qed.

(** ** The rows of the customer purchases tab *)

Section CustomerPurchasesTabFacts.
Variable parseFloat : string -> float.
Variable toLowerCase : string -> string.

Lemma row_matches_spec search typeFilter c :
  row_matches toLowerCase search typeFilter c = true
  <-> (typeFilter = "all"%string
       \/ MonthlyCustomerPurchase.customer_type c = typeFilter)
      /\ ((exists a b,
             toLowerCase (MonthlyCustomerPurchase.customer_name c)
             = (a ++ toLowerCase search ++ b)%string)
          \/ (exists a b,
                MonthlyCustomerPurchase.customer_phone c
                = (a ++ search ++ b)%string)).
Proof.
  unfold row_matches.
  rewrite andb_true_iff, !orb_true_iff, !includes_spec, !String.eqb_eq.
  reflexivity.
Qed.

Lemma row_matches_all c : row_matches toLowerCase EmptyString "all" c = true.
Proof.
  unfold row_matches. rewrite includes_empty, orb_true_r. reflexivity.
Qed.

Lemma filter_all {A} (p : A -> bool) l :
  (forall x, p x = true) -> filter p l = l.
Proof.
  intros H. induction l as [|x l IH]; simpl; auto. now rewrite H, IH.
Qed.

(** X10: the rows shown are rows of the data, no more of them than the data
    has; a row of the data is shown exactly when its type is the selected one
    (or all types are selected) and the search text occurs in its lower-cased
    name or in its phone. *)
Theorem filteredData_rows (search typeFilter sortBy : string)
  (data : list MonthlyCustomerPurchase.t) :
  (List.length (filteredData parseFloat toLowerCase search typeFilter sortBy data)
   <= List.length data)%nat
  /\ (forall c,
        In c (filteredData parseFloat toLowerCase search typeFilter sortBy data)
        <-> In c data
            /\ (typeFilter = "all"%string
                \/ MonthlyCustomerPurchase.customer_type c = typeFilter)
            /\ ((exists a b,
                   toLowerCase (MonthlyCustomerPurchase.customer_name c)
                   = (a ++ toLowerCase search ++ b)%string)
                \/ (exists a b,
                      MonthlyCustomerPurchase.customer_phone c
                      = (a ++ search ++ b)%string))).
Proof.
  unfold filteredData. split.
  - rewrite sort_length. apply filter_length_le.
  - intros c. now rewrite sort_In, filter_In, row_matches_spec.
Qed.

(** X11: with an empty search text and all types selected every row of the
    data is shown, each as often as it occurs in the data, whatever the sort
    key. *)
Theorem filteredData_shows_all (sortBy : string)
  (data : list MonthlyCustomerPurchase.t) :
  Permutation
    (filteredData parseFloat toLowerCase EmptyString "all" sortBy data) data.
Proof.
  unfold filteredData. rewrite sort_perm.
  rewrite filter_all; [reflexivity | apply row_matches_all].
Qed.


Lemma sort_zero {A} (cmp : A -> A -> Z) l :
  (forall a b, cmp a b = 0) -> Js.sort cmp l = l.
Proof.
  intros H. induction l as [|x l IH]; simpl; auto. rewrite IH.
  destruct l as [|y l]; simpl; auto. now rewrite H.
Qed.

(** X13: with a sort key other than the three offered ones the rows shown
    are the matching rows in the order of the data. *)
Theorem filteredData_unsorted (search typeFilter sortBy : string)
  (data : list MonthlyCustomerPurchase.t) :
  sortBy <> "value"%string -> sortBy <> "orders"%string ->
  sortBy <> "balance"%string ->
  filteredData parseFloat toLowerCase search typeFilter sortBy data
  = filter (row_matches toLowerCase search typeFilter) data.
Proof.
  intros Hv Ho Hb. unfold filteredData. apply sort_zero.
  intros a b. unfold compare_rows.
  apply String.eqb_neq in Hv, Ho, Hb. now rewrite Hv, Ho, Hb.
Qed.

(** X14: the type filter offers every customer type of the data once, and
    selecting an offered type with an empty search text shows at least one
    row. *)
Theorem types_offered (sortBy : string) (data : list MonthlyCustomerPurchase.t) :
  NoDup (types data)
  /\ (forall t,
        In t (types data)
        <-> exists c, In c data /\ MonthlyCustomerPurchase.customer_type c = t)
  /\ (forall t,
        In t (types data) ->
        filteredData parseFloat toLowerCase EmptyString t sortBy data <> []).
Proof.
  unfold types. split; [apply spread_string_set_NoDup|].
  assert (M : forall t,
            In t (spread_string_set
                    (map MonthlyCustomerPurchase.customer_type data))
            <-> exists c,
                  In c data /\ MonthlyCustomerPurchase.customer_type c = t).
  { intros t. rewrite spread_string_set_In, in_map_iff.
    split; intros [c [H1 H2]]; exists c; auto. }
  split; [exact M|].
  intros t H. apply M in H as [c [Hc Ht]].
  assert (Hin : In c (filteredData parseFloat toLowerCase EmptyString t
                        sortBy data)).
  { unfold filteredData. rewrite sort_In, filter_In. split; auto.
    apply row_matches_spec. split; [now right|].
    right. exists EmptyString, (MonthlyCustomerPurchase.customer_phone c).
    reflexivity. }
  intros E. rewrite E in Hin. destruct Hin.
Qed.

End CustomerPurchasesTabFacts.

(** The theorem at the sample rows and the sort key [name]. *)
Lemma filteredData_unsorted_witness :
  ("name" <> "value" /\ "name" <> "orders" /\ "name" <> "balance")%string
  /\ filteredData sample_parse_double sample_lower "030" "Permanent" "name"
       sample_rows
     = filter (row_matches sample_lower "030" "Permanent") sample_rows.
Proof.
  split; [repeat split; discriminate|].
  apply (filteredData_unsorted sample_parse_double sample_lower
           "030" "Permanent" "name" sample_rows); discriminate.
Defined.

(** The theorem at the sample rows and the type of the first of them. *)
Lemma types_offered_witness :
  In "Permanent"%string (types sample_rows)
  /\ filteredData sample_parse_double sample_lower EmptyString "Permanent"
       "value" sample_rows <> [].
Proof.
  split; [now left|].
  apply (proj2 (proj2 (types_offered sample_parse_double sample_lower "value"
                         sample_rows))).
  now left.
Defined.


(** ** The value of a month option *)

Lemma split_dash_digits d :
  split_dash (DecimalString.NilEmpty.string_of_uint d)
  = [DecimalString.NilEmpty.string_of_uint d].
Proof. induction d; simpl; try rewrite IHd; reflexivity. Qed.

Lemma split_dash_app a : forall b,
  split_dash a = [a] ->
  split_dash (a ++ String "-"%char b) = a :: split_dash b.
Proof.
  induction a as [|c a IH]; intros b H; simpl in *; auto.
  destruct (Ascii.eqb c "-"%char); [discriminate H|].
  destruct (split_dash a) as [|piece pieces] eqn:E.
  - injection H as <-. discriminate E.
  - injection H as -> ->. now rewrite (IH b eq_refl).
Qed.

Lemma Number_string_of_nat n : Number (string_of_nat n) = Some n.
Proof.
  unfold Number, string_of_nat.
  rewrite DecimalString.NilEmpty.usu. simpl.
  now rewrite DecimalNat.Unsigned.of_to.
Qed.

Lemma monthOption_round_trip_aux (year month : nat) :
  (month < 12)%nat ->
  parseSelectedMonth (MonthOption.value (monthOption year month))
  = [Some year; Some (month + 1)%nat].
Proof.
  intros H. unfold parseSelectedMonth, monthOption. simpl MonthOption.value.
  change (string_of_nat year ++ "-" ++ padStart2 (string_of_nat (month + 1)))%string
    with (string_of_nat year
          ++ String "-"%char (padStart2 (string_of_nat (month + 1))))%string.
  rewrite split_dash_app by apply split_dash_digits.
  simpl map. rewrite Number_string_of_nat. f_equal.
  do 12 (destruct month as [|month]; [reflexivity|]). lia.
Qed.

(** X16: reading back the value of a month option gives the year and the
    month of that option: the value splits at its dash into two numbers, the
    full year and the month counted from 1. *)
Theorem monthOption_round_trip (year month : nat) :
  (month < 12)%nat ->
  parseSelectedMonth (MonthOption.value (monthOption year month))
  = [Some (MonthOption.year (monthOption year month));
     Some (MonthOption.month (monthOption year month))].
Proof.
  intros H. unfold parseSelectedMonth, monthOption.
  simpl MonthOption.value. simpl MonthOption.year. simpl MonthOption.month.
  change (string_of_nat year ++ "-" ++ padStart2 (string_of_nat (month + 1)))%string
    with (string_of_nat year
          ++ String "-"%char (padStart2 (string_of_nat (month + 1))))%string.
  rewrite split_dash_app by apply split_dash_digits.
  simpl map. rewrite Number_string_of_nat. f_equal.
  do 12 (destruct month as [|month]; [reflexivity|]). lia.
Qed.

(** The theorem at March 2024. *)
Lemma monthOption_round_trip_witness :
  (2 < 12)%nat
  /\ parseSelectedMonth (MonthOption.value (monthOption 2024 2))
     = [Some 2024%nat; Some 3%nat].
Proof.
  split; [lia|]. apply (monthOption_round_trip 2024 2). lia.
Defined.

(** X17: two month options with the same value are options of the same year
    and month, so a value selects one month. *)
Theorem monthOption_value_injective (year month year' month' : nat) :
  (month < 12)%nat -> (month' < 12)%nat ->
  MonthOption.value (monthOption year month)
  = MonthOption.value (monthOption year' month') ->
  year = year' /\ month = month'.
Proof.
  intros H H' E.
  pose proof (monthOption_round_trip_aux year month H) as R.
  pose proof (monthOption_round_trip_aux year' month' H') as R'.
  rewrite E, R' in R. simpl in R. injection R as Ey Em. split; lia.
Qed.

(** The theorem at March 2024, taken twice. *)
Lemma monthOption_value_injective_witness :
  ((2 < 12)%nat
   /\ MonthOption.value (monthOption 2024 2)
      = MonthOption.value (monthOption 2024 2))
  /\ (2024 = 2024 /\ 2 = 2)%nat.
Proof.
  split; [split; [lia | reflexivity]|].
  apply (monthOption_value_injective 2024 2 2024 2); [lia | lia | reflexivity].
Defined.


(** ** The top products tab *)

Section TopProductsTabFacts.
Variable parseFloat : string -> Z.

(** X18: the chart has a bar for each of the first ten rows of the data, in
    their order, and no other bar; every bar is labelled with at most 18
    characters. *)
Theorem chartData_top_ten (data : list MonthlyTopProduct.t) :
  List.length (chartData parseFloat data) = Nat.min 10 (List.length data)
  /\ map ChartBar.quantity (chartData parseFloat data)
     = firstn 10 (map MonthlyTopProduct.total_quantity data)
  /\ map ChartBar.revenue (chartData parseFloat data)
     = firstn 10
         (map (fun p => parseFloat (MonthlyTopProduct.total_revenue p)) data)
  /\ Forall (fun bar => (String.length (ChartBar.name bar) <= 18)%nat)
       (chartData parseFloat data).
Proof.
  unfold chartData. repeat split.
  - now rewrite length_map, length_firstn.
  - now rewrite map_map, firstn_map.
  - now rewrite map_map, firstn_map.
  - apply Forall_map, Forall_forall. intros p _. simpl.
    destruct (15 <? String.length (MonthlyTopProduct.product_name p))%nat eqn:E.
    + rewrite (short_label_long _ E), string_length_append, substring_0_length.
      simpl String.length. lia.
    + rewrite (short_label_short _ E). apply Nat.ltb_ge in E. lia.
Qed.

Lemma header_not_fallback m rest :
  (getMonthName m ++ " " ++ rest)%string <> "Current Month"%string.
Proof.
  destruct (Z_le_dec 1 m) as [L|L]; [destruct (Z_le_dec m 12) as [U|U]|].
  - assert (R : m = 1 \/ m = 2 \/ m = 3 \/ m = 4 \/ m = 5 \/ m = 6 \/ m = 7
                \/ m = 8 \/ m = 9 \/ m = 10 \/ m = 11 \/ m = 12) by lia.
    repeat (destruct R as [->|R]; [discriminate|]). subst. discriminate.
  - unfold getMonthName. rewrite array_get_beyond by (simpl; lia).
    discriminate.
  - unfold getMonthName, array_get.
    replace (m - 1 <? 0) with true by (symmetry; apply Z.ltb_lt; lia).
    discriminate.
Qed.

(** X19: the tab shows the notice that there is no data exactly when it is
    not loading and the data is empty; whenever it shows the report, the data
    has a first row and the header is the month name and the year of that
    row, so the fallback header of the source is never shown. *)
Theorem TopProductsTab_header (data : list MonthlyTopProduct.t)
  (isLoading : bool) :
  (TopProductsTab parseFloat data isLoading = NoData
   <-> isLoading = false /\ data = [])
  /\ (forall h chart,
        TopProductsTab parseFloat data isLoading = Report h chart ->
        h <> "Current Month"%string
        /\ exists first rest,
             data = first :: rest
             /\ h = (getMonthName (MonthlyTopProduct.month first) ++ " "
                     ++ string_of_nat (MonthlyTopProduct.year first))%string).
Proof.
  unfold TopProductsTab. destruct isLoading.
  - split; [split; [discriminate | intros [H _]; discriminate H]|].
    intros h chart H. discriminate H.
  - destruct data as [|first rest]; simpl.
    + split; [tauto|]. intros h chart H. discriminate H.
    + split; [split; [discriminate | intros [_ H]; discriminate H]|].
      intros h chart H. injection H as <- _. split.
      * apply header_not_fallback.
      * now exists first, rest.
Qed.
End TopProductsTabFacts.

(** The theorem at a single row for March 2024. *)
Lemma TopProductsTab_header_witness :
  TopProductsTab sample_parse
    [ {| MonthlyTopProduct.product_name := "Hammer";
         MonthlyTopProduct.total_revenue := "500";
         MonthlyTopProduct.total_quantity := 4;
         MonthlyTopProduct.month := 3;
         MonthlyTopProduct.year := 2024 |} ] false
  = Report "Mar 2024"
      [ {| ChartBar.name := "Hammer"; ChartBar.revenue := 3;
           ChartBar.quantity := 4 |} ]
  /\ "Mar 2024"%string <> "Current Month"%string.
Proof.
  split; [reflexivity|].
  apply (proj2 (TopProductsTab_header sample_parse
                  [ {| MonthlyTopProduct.product_name := "Hammer";
                       MonthlyTopProduct.total_revenue := "500";
                       MonthlyTopProduct.total_quantity := 4;
                       MonthlyTopProduct.month := 3;
                       MonthlyTopProduct.year := 2024 |} ] false)
           "Mar 2024"%string
           [ {| ChartBar.name := "Hammer"; ChartBar.revenue := 3;
                ChartBar.quantity := 4 |} ]).
  reflexivity.
Defined.


(** * The reducers on doubles *)

(** ** The groups of the keys partition the input *)

Section GroupingPartition.
Context {X V : Type}.
Variable key : X -> option string.
Variable new : X -> V.
Variable merge : V -> X -> V.

Lemma group_cons k x xs :
  Grouping.group key k (x :: xs)
  = if Js.same_value k (key x) then x :: Grouping.group key k xs
    else Grouping.group key k xs.
Proof. reflexivity. Qed.

Lemma groups_cons x xs ks :
  NoDup ks ->
  Permutation
    (flat_map (fun k => Grouping.group key k (x :: xs)) ks)
    ((if existsb (Js.same_value (key x)) ks then [x] else [])
     ++ flat_map (fun k => Grouping.group key k xs) ks).
Proof.
  induction 1 as [|k ks Hk Hnd IH]; cbn [flat_map existsb]; auto.
  rewrite group_cons, (same_value_sym (key x) k).
  destruct (same_value_spec k (key x)) as [E|E]; cbn [orb].
  - subst k. rewrite IH.
    replace (existsb (Js.same_value (key x)) ks) with false; [reflexivity|].
    symmetry. apply not_true_is_false. now rewrite existsb_same_value.
  - rewrite IH. destruct (existsb (Js.same_value (key x)) ks); cbn [app]; auto.
    symmetry. apply Permutation_middle.
Qed.

Lemma groups_nil ks :
  flat_map (fun k => Grouping.group key k (@nil X)) ks = [].
Proof. induction ks; simpl; auto. Qed.

Lemma group_partition xs : forall ks,
  NoDup ks -> (forall x, In x xs -> In (key x) ks) ->
  Permutation (flat_map (fun k => Grouping.group key k xs) ks) xs.
Proof.
  induction xs as [|x xs IH]; intros ks Hnd Hin.
  - now rewrite groups_nil.
  - rewrite groups_cons by assumption.
    replace (existsb (Js.same_value (key x)) ks) with true.
    + simpl. constructor. apply IH; auto. intros y Hy. apply Hin. now right.
    + symmetry. apply existsb_same_value, Hin. now left.
Qed.

Lemma grouping_partition xs :
  Permutation
    (flat_map (fun k => Grouping.group key k xs)
       (Js.keys (fold_left (Grouping.step key new merge) xs [])))
    xs.
Proof.
  apply group_partition.
  - apply keys_grouping_NoDup.
  - intros x H. rewrite keys_grouping, first_occurrences_In. now apply in_map.
Qed.

(** The entries of the final map, read through a field of the summaries. *)
Lemma grouping_entries {F : Type} (f : V -> F) xs :
  map (fun e => Some (f (snd e)))
    (fold_left (Grouping.step key new merge) xs [])
  = map (fun e => option_map f
                    (Grouping.summary new merge (Grouping.group key (fst e) xs)))
      (fold_left (Grouping.step key new merge) xs []).
Proof.
  apply map_ext_in. intros [k v] H. simpl.
  apply In_get in H; [|apply keys_grouping_NoDup].
  rewrite get_fold_step_empty in H. now rewrite H.
Qed.
End GroupingPartition.

(** ** Sums accumulated by the doubles *)

Lemma Permutation_map_Some_eq {A} (l l' : list A) :
  map Some l = map Some l' -> l = l'.
Proof.
  revert l'. induction l as [|a l IH]; intros [|b l'] H; simpl in H;
    try discriminate; auto.
  injection H as -> H. f_equal. now apply IH.
Qed.

Section DoubleAdditive.
Context {X V : Type}.
Variable key : X -> option string.
Variable new : X -> V.
Variable merge : V -> X -> V.
Variable f : V -> float.
Variable d : X -> float.
Hypothesis f_new : forall x, f (new x) = d x.
Hypothesis f_merge : forall e x, f (merge e x) = PrimFloat.add (f e) (d x).

Lemma running_fold_absorb xs : forall e,
  option_map f (fold_left (Grouping.absorb new merge) xs (Some e))
  = Some (Double.running (f e) (map d xs)).
Proof.
  induction xs as [|x xs IH]; intros e; simpl; auto.
  now rewrite IH, f_merge.
Qed.

Lemma running_summary x xs :
  option_map f (Grouping.summary new merge (x :: xs))
  = Some (Double.running (d x) (map d xs)).
Proof.
  unfold Grouping.summary. simpl. now rewrite running_fold_absorb, f_new.
Qed.

Lemma accumulated_summary xs :
  option_map f (Grouping.summary new merge xs)
  = match xs with [] => None | _ :: _ => Some (Double.accumulated d xs) end.
Proof. destruct xs as [|x xs]; [reflexivity | apply running_summary]. Qed.

Lemma values_accumulated xs :
  map f (Js.values (fold_left (Grouping.step key new merge) xs []))
  = map (fun k => Double.accumulated d (Grouping.group key k xs))
      (Js.keys (fold_left (Grouping.step key new merge) xs [])).
Proof.
  apply Permutation_map_Some_eq.
  unfold Js.values, Js.keys. rewrite !map_map.
  rewrite (grouping_entries key new merge f xs).
  apply map_ext_in. intros [k v] H. simpl.
  rewrite accumulated_summary.
  destruct (Grouping.group key k xs) eqn:G; auto.
  apply In_get in H; [|apply keys_grouping_NoDup].
  rewrite get_fold_step_empty, G in H. discriminate H.
Qed.
End DoubleAdditive.


(** ** Where the addition of doubles is exact *)

Section DoubleExact.
Variable good : float -> Prop.
Variable val : float -> Z.
Variable bound : Z.
Hypothesis range : Double.exact_range good val bound.

Lemma magnitude_nonneg l : 0 <= Double.magnitude val l.
Proof. induction l as [|x l IH]; simpl; lia. Qed.

Lemma magnitude_app l l' :
  Double.magnitude val (l ++ l')
  = Double.magnitude val l + Double.magnitude val l'.
Proof. induction l as [|x l IH]; simpl; lia. Qed.

Lemma magnitude_perm l l' :
  Permutation l l' -> Double.magnitude val l = Double.magnitude val l'.
Proof. induction 1; simpl; lia. Qed.

Lemma magnitude_filter {X} (d : X -> float) (p : X -> bool) xs :
  Double.magnitude val (map d (filter p xs))
  <= Double.magnitude val (map d xs).
Proof.
  induction xs as [|x xs IH]; simpl; [lia|].
  destruct (p x); simpl; lia.
Qed.

Lemma sum_le_magnitude l : Z.abs (sumZ (map val l)) <= Double.magnitude val l.
Proof. induction l as [|x l IH]; simpl; lia. Qed.

Lemma within_perm l l' :
  Permutation l l' ->
  Double.within good val bound l -> Double.within good val bound l'.
Proof.
  intros P [F M]. split.
  - now apply (Permutation_Forall P).
  - now rewrite <- (magnitude_perm _ _ P).
Qed.

Lemma within_filter {X} (d : X -> float) (p : X -> bool) xs :
  Double.within good val bound (map d xs) ->
  Double.within good val bound (map d (filter p xs)).
Proof.
  intros [F M]. split.
  - rewrite Forall_forall in *. intros y Hy.
    apply in_map_iff in Hy as [x [<- Hx]]. apply filter_In in Hx as [Hx _].
    apply F. now apply in_map.
  - pose proof (magnitude_filter d p xs). lia.
Qed.

Lemma exact_running l : forall a,
  good a -> Forall good l ->
  Z.abs (val a) + Double.magnitude val l <= bound ->
  good (Double.running a l)
  /\ val (Double.running a l) = val a + sumZ (map val l).
Proof.
  induction l as [|x l IH]; intros a Ha F M; simpl in *.
  - split; [assumption | lia].
  - inversion F as [|? ? Hx F']; subst.
    pose proof (magnitude_nonneg l) as N.
    destruct (Double.exact_add _ _ _ range a x Ha Hx) as [Hg Hv]; [lia|].
    destruct (IH (PrimFloat.add a x) Hg F') as [Hg' Hv']; [lia|].
    split; [exact Hg' | lia].
Qed.

Lemma exact_total l :
  Double.within good val bound l ->
  good (Double.total l) /\ val (Double.total l) = sumZ (map val l).
Proof.
  intros [F M]. destruct (Double.exact_zero _ _ _ range) as [H0 V0].
  destruct (exact_running l 0%float H0 F) as [Hg Hv].
  { rewrite V0. simpl Z.abs. lia. }
  split; [exact Hg|]. unfold Double.total. fold (Double.running 0%float l).
  rewrite Hv, V0. lia.
Qed.

Lemma exact_accumulated {X} (d : X -> float) xs :
  Double.within good val bound (map d xs) ->
  good (Double.accumulated d xs)
  /\ val (Double.accumulated d xs) = sumZ (map val (map d xs)).
Proof.
  intros [F M]. destruct xs as [|x xs]; simpl in *.
  - exact (Double.exact_zero _ _ _ range).
  - inversion F as [|? ? Hx F']; subst. now apply exact_running.
Qed.


Section GrandTotal.
Context {X V : Type}.
Variable key : X -> option string.
Variable new : X -> V.
Variable merge : V -> X -> V.
Variable f : V -> float.
Variable d : X -> float.
Hypothesis f_new : forall x, f (new x) = d x.
Hypothesis f_merge : forall e x, f (merge e x) = PrimFloat.add (f e) (d x).

Variable xs : list X.
Hypothesis inputs : Double.within good val bound (map d xs).

Lemma accumulated_groups ks :
  Forall good (map (fun k => Double.accumulated d (Grouping.group key k xs)) ks)
  /\ Double.magnitude val
       (map (fun k => Double.accumulated d (Grouping.group key k xs)) ks)
     <= Double.magnitude val
          (map d (flat_map (fun k => Grouping.group key k xs) ks))
  /\ sumZ (map val
             (map (fun k => Double.accumulated d (Grouping.group key k xs)) ks))
     = sumZ (map val
               (map d (flat_map (fun k => Grouping.group key k xs) ks))).
Proof.
  induction ks as [|k ks [IF [IM IS]]]; simpl.
  - repeat split; [constructor | lia].
  - destruct (exact_accumulated d (Grouping.group key k xs)) as [Hg Hv].
    { apply within_filter, inputs. }
    pose proof (sum_le_magnitude (map d (Grouping.group key k xs))) as A.
    rewrite !map_app, magnitude_app.
    repeat split.
    + now constructor.
    + lia.
    + rewrite Hv, IS. clear. 
      induction (map val (map d (Grouping.group key k xs))); simpl; lia.
Qed.

Lemma exact_grand_total out :
  Permutation out
    (Js.values (fold_left (Grouping.step key new merge) xs [])) ->
  Double.total (map f out) = Double.total (map d xs).
Proof.
  intros P.
  pose proof (grouping_partition key new merge xs) as Part.
  destruct (accumulated_groups
              (Js.keys (fold_left (Grouping.step key new merge) xs [])))
    as [IF [IM IS]].
  rewrite <- (values_accumulated key new merge f d f_new f_merge) in IF, IM, IS.
  rewrite (magnitude_perm _ _ (Permutation_map d Part)) in IM.
  rewrite (sumZ_perm _ _ (Permutation_map val (Permutation_map d Part))) in IS.
  assert (W : Double.within good val bound (map f out)).
  { apply (within_perm
             (map f (Js.values
                       (fold_left (Grouping.step key new merge) xs [])))).
    - symmetry. now apply Permutation_map.
    - split; [exact IF | destruct inputs; lia]. }
  destruct (exact_total _ W) as [Go Vo].
  destruct (exact_total _ inputs) as [Gi Vi].
  apply (Double.exact_inj _ _ _ range); auto.
  rewrite Vo, Vi, <- IS. apply sumZ_perm. now do 2 apply Permutation_map.
Qed.
End GrandTotal.
End DoubleExact.


(** ** The two reducers on doubles as instances of the shared shape *)

Lemma double_productMap_grouping sales :
  Double.productMap sales
  = fold_left
      (Grouping.step Double.product_key Double.product_new Double.product_merge)
      (Double.all_items sales) [].
Proof. unfold Double.productMap, Double.all_items. apply fold_left_flat_map. Qed.

Lemma double_productsSold_perm sales :
  Permutation (Double.productsSold (Some sales))
    (Js.values
       (fold_left
          (Grouping.step Double.product_key Double.product_new
             Double.product_merge)
          (Double.all_items sales) [])).
Proof.
  unfold Double.productsSold. rewrite double_productMap_grouping.
  apply sort_perm.
Qed.

Lemma double_customerPurchases_perm sales :
  Permutation (Double.customerPurchases (Some sales))
    (Js.values
       (fold_left
          (Grouping.step (fun sale => Some (Double.customer_key sale))
             Double.customer_new Double.customer_merge)
          sales [])).
Proof. unfold Double.customerPurchases. apply sort_perm. Qed.

Lemma double_product_group sales s :
  In s (Double.productsSold (Some sales)) ->
  exists first rest,
    Double.items_with_key (Double.product_key first) sales = first :: rest
    /\ Grouping.summary Double.product_new Double.product_merge (first :: rest)
       = Some s
    /\ Js.get (Double.productMap sales) (Double.product_key first) = Some s.
Proof.
  intros H. apply (Permutation_in _ (double_productsSold_perm sales)) in H.
  apply grouping_value in H as [first [rest [G S]]]. exists first, rest.
  repeat split; auto.
  rewrite double_productMap_grouping, get_fold_step_empty.
  unfold Double.items_with_key in G. now rewrite G.
Qed.

Lemma double_customer_summary_name x rest c :
  Grouping.summary Double.customer_new Double.customer_merge (x :: rest)
  = Some c ->
  Double.CustomerPurchase.name c = Double.customer_key x.
Proof.
  intros H.
  pose proof (frame_summary Double.customer_new Double.customer_merge
                Double.CustomerPurchase.name (fun _ _ => eq_refl) x rest) as F.
  rewrite H in F. simpl in F. congruence.
Qed.

Lemma double_customer_group sales c :
  In c (Double.customerPurchases (Some sales)) ->
  exists first rest,
    Double.sales_of_customer (Double.CustomerPurchase.name c) sales
    = first :: rest
    /\ Grouping.summary Double.customer_new Double.customer_merge
         (first :: rest) = Some c.
Proof.
  intros H. apply (Permutation_in _ (double_customerPurchases_perm sales)) in H.
  apply grouping_value in H as [x [rest [G S]]]. exists x, rest. split; auto.
  unfold Double.sales_of_customer.
  now rewrite (double_customer_summary_name _ _ _ S).
Qed.

Lemma double_small_range :
  Double.exact_range Double.small_good Double.small_val 4.
Proof.
  split.
  - split; [now left | reflexivity].
  - intros x y Hx Hy. unfold Double.small_good in *. simpl in Hx, Hy.
    repeat (destruct Hx as [<-|Hx]; [|]); try contradiction;
      repeat (destruct Hy as [<-|Hy]; [|]); try contradiction;
      vm_compute; intros B; try (exfalso; apply B; reflexivity);
      (split; [tauto | reflexivity]).
  - intros x y Hx Hy. unfold Double.small_good in *. simpl in Hx, Hy.
    repeat (destruct Hx as [<-|Hx]; [|]); try contradiction;
      repeat (destruct Hy as [<-|Hy]; [|]); try contradiction;
      vm_compute; intros E; try reflexivity; discriminate E.
Qed.

(** ** Lossless partition *)

(** C1, as stated, fails on doubles: for the order with the lines 0.1 and
    10.5 of article A and 0.2 of article B the quantities and the revenues of
    the two summaries add up to 10.799999999999999, those of the three line
    items to 10.8. *)
Lemma double_lossless_counterexample :
  Double.total (map Double.ProductSold.quantity
                  (Double.productsSold (Some [Double.fraction_sale])))
  = 10.799999999999999%float
  /\ Double.total (map Double.item_quantity
                     (Double.all_items [Double.fraction_sale]))
     = 10.8%float
  /\ Double.total (map Double.ProductSold.revenue
                     (Double.productsSold (Some [Double.fraction_sale])))
     <> Double.total (map Double.item_total
                        (Double.all_items [Double.fraction_sale]))
  /\ Double.total (map Double.ProductSold.quantity
                     (Double.productsSold (Some [Double.fraction_sale])))
     <> Double.total (map Double.item_quantity
                        (Double.all_items [Double.fraction_sale])).
Proof.
  split; [reflexivity|]. split; [reflexivity|].
  split; intros E;
    match type of E with
    | ?a = ?b => assert (H : PrimFloat.eqb a b = false) by reflexivity
    end;
    rewrite E in H; discriminate H.
Qed.

(** C1, amended: every line item is accumulated in exactly one product
    summary and every record in exactly one customer summary: the groups of
    the merge keys partition the input. The quantity and the revenue of a
    product summary and the total spent of a customer summary are the
    defaulted values of the group added one by one in input order, and the
    orders of a customer summary count its group, so that the orders add up
    to the number of records. Where these additions are exact, on amounts
    within an exact range of the doubles, the quantities, the revenues and
    the totals spent of the summaries add up to those of the input. *)
Theorem double_lossless_partition (sales : list Double.Sale.t) :
  Permutation
    (flat_map (fun k => Double.items_with_key k sales)
       (Js.keys (Double.productMap sales)))
    (Double.all_items sales)
  /\ Permutation
       (flat_map
          (fun k => Grouping.group
                      (fun sale => Some (Double.customer_key sale)) k sales)
          (Js.keys (Double.customerMap sales)))
       sales
  /\ (forall s, In s (Double.productsSold (Some sales)) ->
        exists first rest,
          Double.items_with_key (Double.product_key first) sales = first :: rest
          /\ Js.get (Double.productMap sales) (Double.product_key first)
             = Some s
          /\ Double.ProductSold.quantity s
             = Double.running (Double.item_quantity first)
                 (map Double.item_quantity rest)
          /\ Double.ProductSold.revenue s
             = Double.running (Double.item_total first)
                 (map Double.item_total rest))
  /\ (forall c, In c (Double.customerPurchases (Some sales)) ->
        exists first rest,
          Double.sales_of_customer (Double.CustomerPurchase.name c) sales
          = first :: rest
          /\ Double.CustomerPurchase.orders c
             = Z.of_nat (List.length (first :: rest))
          /\ Double.CustomerPurchase.totalSpent c
             = Double.running (Double.sale_amount first)
                 (map Double.sale_amount rest))
  /\ sumZ (map Double.CustomerPurchase.orders
             (Double.customerPurchases (Some sales)))
     = Z.of_nat (List.length sales)
  /\ (forall good val bound,
        Double.exact_range good val bound ->
        (Double.within good val bound
           (map Double.item_quantity (Double.all_items sales)) ->
         Double.total (map Double.ProductSold.quantity
                         (Double.productsSold (Some sales)))
         = Double.total (map Double.item_quantity (Double.all_items sales)))
        /\ (Double.within good val bound
              (map Double.item_total (Double.all_items sales)) ->
            Double.total (map Double.ProductSold.revenue
                            (Double.productsSold (Some sales)))
            = Double.total (map Double.item_total (Double.all_items sales)))
        /\ (Double.within good val bound (map Double.sale_amount sales) ->
            Double.total (map Double.CustomerPurchase.totalSpent
                            (Double.customerPurchases (Some sales)))
            = Double.total (map Double.sale_amount sales))).
Proof.
  split; [|split; [|split; [|split; [|split]]]].
  - rewrite double_productMap_grouping. apply grouping_partition.
  - apply grouping_partition.
  - intros s H. apply double_product_group in H as [first [rest [G [S Hget]]]].
    exists first, rest. split; auto. split; auto.
    pose proof (running_summary Double.product_new Double.product_merge
                  Double.ProductSold.quantity Double.item_quantity
                  (fun _ => eq_refl) (fun _ _ => eq_refl) first rest) as Fq.
    pose proof (running_summary Double.product_new Double.product_merge
                  Double.ProductSold.revenue Double.item_total
                  (fun _ => eq_refl) (fun _ _ => eq_refl) first rest) as Fr.
    rewrite S in Fq, Fr. simpl option_map in Fq, Fr. split; congruence.
  - intros c H. apply double_customer_group in H as [first [rest [G S]]].
    exists first, rest. split; auto.
    pose proof (f_summary Double.customer_new Double.customer_merge
                  Double.CustomerPurchase.orders (fun _ => 1)
                  (fun _ => eq_refl) (fun _ _ => eq_refl) first rest) as Fo.
    pose proof (running_summary Double.customer_new Double.customer_merge
                  Double.CustomerPurchase.totalSpent Double.sale_amount
                  (fun _ => eq_refl) (fun _ _ => eq_refl) first rest) as Ft.
    rewrite S in Fo, Ft. simpl option_map in Fo, Ft.
    rewrite sumZ_ones in Fo. split; congruence.
  - rewrite (sumZ_perm _ _ (Permutation_map _
                              (double_customerPurchases_perm sales))).
    rewrite (sum_fold_step _ _ _ Double.CustomerPurchase.orders (fun _ => 1));
      auto.
    now rewrite sumZ_ones.
  - intros good val bound R. split; [|split]; intros W.
    + apply (exact_grand_total good val bound R Double.product_key
               Double.product_new Double.product_merge
               Double.ProductSold.quantity Double.item_quantity); auto.
      apply double_productsSold_perm.
    + apply (exact_grand_total good val bound R Double.product_key
               Double.product_new Double.product_merge
               Double.ProductSold.revenue Double.item_total); auto.
      apply double_productsSold_perm.
    + apply (exact_grand_total good val bound R
               (fun sale => Some (Double.customer_key sale))
               Double.customer_new Double.customer_merge
               Double.CustomerPurchase.totalSpent Double.sale_amount); auto.
      apply double_customerPurchases_perm.
Qed.

Lemma double_alice_within :
  Double.within Double.small_good Double.small_val 4
    (map Double.item_quantity (Double.all_items Double.alice_sales))
  /\ Double.within Double.small_good Double.small_val 4
       (map Double.item_total (Double.all_items Double.alice_sales))
  /\ Double.within Double.small_good Double.small_val 4
       (map Double.sale_amount Double.alice_sales).
Proof.
  repeat split; try (vm_compute; discriminate);
    repeat constructor; vm_compute; tauto.
Qed.

(** The theorem at the two orders of Alice, whose amounts 1 and 2 lie in the
    range of five doubles. *)
Lemma double_lossless_partition_witness :
  (In Double.alice_product (Double.productsSold (Some Double.alice_sales))
   /\ exists first rest,
        Double.items_with_key (Double.product_key first) Double.alice_sales
        = first :: rest
        /\ Js.get (Double.productMap Double.alice_sales)
             (Double.product_key first) = Some Double.alice_product
        /\ Double.ProductSold.quantity Double.alice_product
           = Double.running (Double.item_quantity first)
               (map Double.item_quantity rest)
        /\ Double.ProductSold.revenue Double.alice_product
           = Double.running (Double.item_total first)
               (map Double.item_total rest))
  /\ (In Double.alice_customer
        (Double.customerPurchases (Some Double.alice_sales))
      /\ exists first rest,
           Double.sales_of_customer
             (Double.CustomerPurchase.name Double.alice_customer)
             Double.alice_sales = first :: rest
           /\ Double.CustomerPurchase.orders Double.alice_customer
              = Z.of_nat (List.length (first :: rest))
           /\ Double.CustomerPurchase.totalSpent Double.alice_customer
              = Double.running (Double.sale_amount first)
                  (map Double.sale_amount rest))
  /\ (Double.exact_range Double.small_good Double.small_val 4
      /\ Double.within Double.small_good Double.small_val 4
           (map Double.item_quantity (Double.all_items Double.alice_sales))
      /\ Double.total (map Double.ProductSold.quantity
                         (Double.productsSold (Some Double.alice_sales)))
         = Double.total (map Double.item_quantity
                           (Double.all_items Double.alice_sales)))
  /\ (Double.within Double.small_good Double.small_val 4
        (map Double.item_total (Double.all_items Double.alice_sales))
      /\ Double.total (map Double.ProductSold.revenue
                         (Double.productsSold (Some Double.alice_sales)))
         = Double.total (map Double.item_total
                           (Double.all_items Double.alice_sales)))
  /\ (Double.within Double.small_good Double.small_val 4
        (map Double.sale_amount Double.alice_sales)
      /\ Double.total (map Double.CustomerPurchase.totalSpent
                         (Double.customerPurchases (Some Double.alice_sales)))
         = Double.total (map Double.sale_amount Double.alice_sales)).
Proof.
  destruct (double_lossless_partition Double.alice_sales)
    as [_ [_ [Hp [Hc [_ He]]]]].
  destruct (He _ _ _ double_small_range) as [Eq [Er Et]].
  destruct double_alice_within as [Wq [Wr Wt]].
  split; [split; [now left | apply Hp; now left]|].
  split; [split; [now left | apply Hc; now left]|].
  split; [split; [apply double_small_range | split; [exact Wq | exact (Eq Wq)]]|].
  split; [split; [exact Wr | exact (Er Wr)]|].
  split; [exact Wt | exact (Et Wt)].
Defined.

(** ** The average price *)


(** C2 on the code: the only summary of the discounted sale, two hammers
    listed at 60 and sold for 100, has the average price 60, while its
    revenue divided by its quantity is 50; a second line of the same article
    that adds quantity 0 and revenue 0 turns the average price into 50. *)
Theorem double_avgPrice_first_insert :
  Double.productsSold (Some [Double.discounted_sale]) = [Double.hammer 60]
  /\ PrimFloat.div (Double.ProductSold.revenue (Double.hammer 60))
       (Double.ProductSold.quantity (Double.hammer 60)) = 50%float
  /\ Double.ProductSold.avgPrice (Double.hammer 60)
     <> PrimFloat.div (Double.ProductSold.revenue (Double.hammer 60))
          (Double.ProductSold.quantity (Double.hammer 60))
  /\ Double.productsSold (Some [Double.discounted_sale_twice])
     = [Double.hammer 50].
Proof.
  split; [reflexivity|]. split; [reflexivity|]. split; [|reflexivity].
  intros E.
  assert (H : PrimFloat.eqb (Double.ProductSold.avgPrice (Double.hammer 60))
                (PrimFloat.div (Double.ProductSold.revenue (Double.hammer 60))
                   (Double.ProductSold.quantity (Double.hammer 60))) = false)
    by reflexivity.
  rewrite E in H. discriminate H.
Qed.

(** ** Permuted input *)

Section GroupingPermuted.
Context {X V T : Type}.
Variable key : X -> option string.
Variable new : X -> V.
Variable merge : V -> X -> V.
Variable figures : V -> T.


End GroupingPermuted.




Section DoublePermutedTotals.
Variable good : float -> Prop.
Variable val : float -> Z.
Variable bound : Z.
Hypothesis range : Double.exact_range good val bound.


End DoublePermutedTotals.



